(** * ChewyTask: scheduling and dispatch engine

    A shallow embedding of [chewy_task/schedules.py], [task.py],
    [executor.py], [scheduler.py] and the submission path of [app.py],
    followed by the properties of the due-time rule, the executor life
    cycle and the tick loop.

    Conventions of the embedding.
    - Python numbers that measure time ([interval], [last_run_at], the
      value of [time.time()]) are doubles; their values are rationals
      ([Q]) and comparisons are exact, while [+] and [-] on them round:
      they are the [fadd] and [fsub] of the world's [FloatUnit].
    - A method [Class.method(self, ...)] is [Class_method ...] in the
      monad [M Class], whose state is the object [self]; a call on an
      attribute goes through [zoom].
    - Exceptions are values ([Exc]); [try_except] is [try/except Exception].
    - [time.time()] reads the next value of a clock oracle; every call of
      the logger appends one record to the log.
    - The pools of [concurrent.futures] are outside the repository: what
      their constructor, [submit] and [shutdown] raise is given by a
      [Backend] oracle; an accepted call is appended to the pool's jobs. *)

From Stdlib Require Import String List ZArith QArith Qminmax Lqa Lia Bool.
Import ListNotations.

Open Scope Q_scope.

(** ** Exceptions, logging, clock *)

Inductive ExcClass : Type :=
| ValueError
| RuntimeError
| AttributeError
| TypeError
| QueueEmpty       (* queue.Empty *)
| PoolError.       (* whatever the pool of concurrent.futures raises *)

Record Exc : Type := mkExc { exc_class : ExcClass; exc_msg : string }.

Inductive Outcome (A : Type) : Type :=
| Return (a : A)
| Raise (e : Exc).
Arguments Return {A} a.
Arguments Raise {A} e.

Inductive PoolKind : Type := ThreadPool | ProcessPool.

Inductive PyVal : Type :=
| VNone
| VInt (z : Z)
| VStr (s : string).

Inductive Level : Type := DEBUG | INFO | WARNING | ERROR.

Record IntervalSchedule : Type := mkIntervalSchedule { interval : Q }.

(** The text of a log record: one constructor per f-string of the source,
    carrying the interpolated values. *)
Inductive Message : Type :=
| ExecutorStarted (cls : PoolKind) (workers : option Z)
| FailedToSubmitTask (e : Exc)
| ShuttingDownExecutor (cls : PoolKind)
| ErrorDuringExecutorShutdown (e : Exc)
| ScheduledTaskAdded (task_name : string) (s : IntervalSchedule)
| InstantTaskSubmitted (task_name : string)
| RunningScheduledTask (task_name : string)
| FailedToSubmitScheduledTask (task_name : string) (e : Exc)
| ProcessingInstantTask (task_name : string)
| FailedToSubmitInstantTask (task_name : string) (e : Exc)
| ShuttingDownScheduler
| SchedulerShutdownComplete
| SchedulerInitialized.

Definition LogRecord : Type := (Level * Message)%type.

(** ** Tasks *)

Definition AppRef : Type := nat.

Record Func : Type := mkFunc { __name__ : string }.

Record Task : Type := mkTask {
  func : Func;
  name : string;
  app : option AppRef
}.

(** [name or func.__name__]: the empty string is falsy. *)
Definition Task_init (f : Func) (nm : option string) (a : option AppRef) : Task :=
  {| func := f;
     name := match nm with
             | Some s => if String.eqb s EmptyString then __name__ f else s
             | None => __name__ f
             end;
     app := a |}.

(** A callable handed to an executor: always the bound method [task.run]. *)
Inductive Callable : Type := Task_run (self : Task).

Definition Args : Type := list PyVal.
Definition Kwargs : Type := list (string * PyVal).

Record Job : Type := mkJob {
  job_fn : Callable;
  job_args : Args;
  job_kwargs : Kwargs
}.

(** ** The pools of concurrent.futures *)

Record Pool : Type := mkPool {
  pool_kind : PoolKind;
  pool_max_workers : option Z;
  pool_jobs : list Job            (* accepted submissions, oldest first *)
}.

Record Future : Type := mkFuture {
  future_job : Job;
  future_seq : nat                (* position of the job in its pool *)
}.

Record Backend : Type := mkBackend {
  pool_init_error : PoolKind -> option Z -> option Exc;
  pool_submit_error : Pool -> Job -> option Exc;
  pool_shutdown_error : Pool -> bool -> option Exc
}.

(** ** The arithmetic of doubles

    A double is the rational it denotes.  Addition and subtraction give
    the double nearest to the exact result, so they are taken from the
    world, with the two facts about them the development relies on; both
    hold of IEEE-754 binary64 on finite values: the difference of two
    doubles is never rounded to zero or across zero, and adding a value
    that is not negative to a double never gives a smaller double. *)

Record FloatUnit : Type := mkFloatUnit {
  fadd : Q -> Q -> Q;
  fsub : Q -> Q -> Q;
  fsub_sign : forall x y : Q, fsub x y <= 0 <-> x <= y;
  fadd_not_below : forall x y : Q, 0 <= y -> x <= fadd x y
}.

(** ** The world outside the objects *)

Record Sys : Type := mkSys {
  time_src : nat -> Q;            (* successive values of time.time() *)
  time_idx : nat;                 (* how many have been read *)
  backend : Backend;
  fpu : FloatUnit;
  log : list LogRecord            (* oldest first *)
}.

(** ** The monad of methods *)

Definition M (St A : Type) : Type := St -> Sys -> Outcome A * St * Sys.

Definition ret {St A} (a : A) : M St A := fun st sys => (Return a, st, sys).

Definition raise {St A} (e : Exc) : M St A := fun st sys => (Raise e, st, sys).

Definition bind {St A B} (m : M St A) (k : A -> M St B) : M St B :=
  fun st sys =>
    match m st sys with
    | (Return a, st', sys') => k a st' sys'
    | (Raise e, st', sys') => (Raise e, st', sys')
    end.

Declare Scope method_scope.
Delimit Scope method_scope with method.
Bind Scope method_scope with M.

Notation "x <- m ;; k" := (bind m (fun x => k))
  (at level 61, m at next level, right associativity) : method_scope.
Notation "' pat <- m ;; k" := (bind m (fun x => match x with pat => k end))
  (at level 61, pat pattern, m at next level, right associativity) : method_scope.
Notation "m ;; k" := (bind m (fun _ => k))
  (at level 61, right associativity) : method_scope.

Open Scope method_scope.

(** [try: m except Exception as e: h e] *)
Definition try_except {St A} (m : M St A) (h : Exc -> M St A) : M St A :=
  fun st sys =>
    match m st sys with
    | (Return a, st', sys') => (Return a, st', sys')
    | (Raise e, st', sys') => h e st' sys'
    end.

(** [try: m except C: h], for one exception class [C] *)
Definition is_class (c : ExcClass) (e : Exc) : bool :=
  match c, exc_class e with
  | ValueError, ValueError
  | RuntimeError, RuntimeError
  | AttributeError, AttributeError
  | TypeError, TypeError
  | QueueEmpty, QueueEmpty
  | PoolError, PoolError => true
  | _, _ => false
  end.

Definition try_except_class {St A} (c : ExcClass) (m : M St A) (h : M St A) : M St A :=
  try_except m (fun e => if is_class c e then h else raise e).

(** [try: m finally: f] *)
Definition try_finally {St A} (m : M St A) (f : M St unit) : M St A :=
  fun st sys =>
    match m st sys with
    | (r, st', sys') =>
        match f st' sys' with
        | (Return _, st'', sys'') => (r, st'', sys'')
        | (Raise e, st'', sys'') => (Raise e, st'', sys'')
        end
    end.

Definition get {St} : M St St := fun st sys => (Return st, st, sys).
Definition put {St} (st : St) : M St unit := fun _ sys => (Return tt, st, sys).
Definition gets {St A} (f : St -> A) : M St A := fun st sys => (Return (f st), st, sys).
Definition modify {St} (f : St -> St) : M St unit := fun st sys => (Return tt, f st, sys).

(** Run a method of an attribute (an object held in a field). *)
Definition zoom {Outer Inner A} (getter : Outer -> Inner) (setter : Inner -> Outer -> Outer)
    (m : M Inner A) : M Outer A :=
  fun o sys =>
    match m (getter o) sys with
    | (r, i', sys') => (r, setter i' o, sys')
    end.

Definition add_log (r : LogRecord) (sys : Sys) : Sys :=
  {| time_src := time_src sys; time_idx := time_idx sys;
     backend := backend sys; fpu := fpu sys; log := log sys ++ [r] |}.

Definition clock_now (sys : Sys) : Q := time_src sys (time_idx sys).

Definition advance_clock (sys : Sys) : Sys :=
  {| time_src := time_src sys; time_idx := S (time_idx sys);
     backend := backend sys; fpu := fpu sys; log := log sys |}.

Definition logger {St} (lvl : Level) (msg : Message) : M St unit :=
  fun st sys => (Return tt, st, add_log (lvl, msg) sys).

Definition time_time {St} : M St Q :=
  fun st sys => (Return (clock_now sys), st, advance_clock sys).

Definition the_backend {St} : M St Backend :=
  fun st sys => (Return (backend sys), st, sys).

Definition the_fpu {St} : M St FloatUnit :=
  fun st sys => (Return (fpu sys), st, sys).

(** Projections of a finished run. *)
Definition outcome {St A} (r : Outcome A * St * Sys) : Outcome A := fst (fst r).
Definition state_of {St A} (r : Outcome A * St * Sys) : St := snd (fst r).
Definition sys_of {St A} (r : Outcome A * St * Sys) : Sys := snd r.

(** ** schedules.py *)

(** [IntervalSchedule.__init__]; the message of the source goes on with
    the value of the interval, which the model leaves out. *)
Definition IntervalSchedule_init (interval : Q) : Outcome IntervalSchedule :=
  if Qle_bool interval 0
  then Raise (mkExc ValueError "Interval must be greater than 0")
  else Return (mkIntervalSchedule interval).

(** ** task.py *)

Record TaskEntry : Type := mkTaskEntry {
  id : string;
  task : Task;
  schedule : IntervalSchedule;
  args : Args;
  kwargs : Kwargs;
  last_run_at : option Q
}.

(** [uuid] stands for [str(uuid4())]; [args or []], [kwargs or {}]. *)
Definition TaskEntry_init (uuid : string) (t : Task) (s : IntervalSchedule)
    (a : option Args) (k : option Kwargs) : TaskEntry :=
  {| id := uuid; task := t; schedule := s;
     args := match a with Some l => l | None => [] end;
     kwargs := match k with Some l => l | None => [] end;
     last_run_at := None |}.

Definition set_last_run_at (v : option Q) (e : TaskEntry) : TaskEntry :=
  {| id := id e; task := task e; schedule := schedule e;
     args := args e; kwargs := kwargs e; last_run_at := v |}.

(** The body of [TaskEntry.is_due] once [now = time.time()] is read,
    with the arithmetic [u] of doubles. *)
Definition is_due_at (u : FloatUnit) (self : TaskEntry) (now : Q) : bool * Q :=
  match last_run_at self with
  | None => (true, interval (schedule self))
  | Some last =>
      let next_run := fadd u last (interval (schedule self)) in
      let remaining := fsub u next_run now in
      if Qle_bool remaining 0
      then (true, interval (schedule self))
      else (false, remaining)
  end.

Definition TaskEntry_is_due {St} (self : TaskEntry) : M St (bool * Q) :=
  now <- time_time ;;
  u <- the_fpu ;;
  ret (is_due_at u self now).

(** ** executor.py *)

Record BaseExecutor : Type := mkBaseExecutor {
  executor_class : PoolKind;      (* ThreadExecutor or ProcessExecutor *)
  max_workers : option Z;
  _executor : option Pool
}.

Definition BaseExecutor_init (cls : PoolKind) (mw : option Z) : BaseExecutor :=
  {| executor_class := cls; max_workers := mw; _executor := None |}.

Definition set__executor (p : option Pool) (self : BaseExecutor) : BaseExecutor :=
  {| executor_class := executor_class self; max_workers := max_workers self;
     _executor := p |}.

(** [ThreadPoolExecutor(max_workers=...)] / [ProcessPoolExecutor(max_workers=...)] *)
Definition _create_executor : M BaseExecutor Pool :=
  self <- get ;;
  b <- the_backend ;;
  match pool_init_error b (executor_class self) (max_workers self) with
  | Some e => raise e
  | None => ret (mkPool (executor_class self) (max_workers self) [])
  end.

(** [max_workers or 'auto'] *)
Definition workers_or_auto (mw : option Z) : option Z :=
  match mw with
  | Some z => if Z.eqb z 0 then None else Some z
  | None => None
  end.

Definition BaseExecutor_start : M BaseExecutor unit :=
  self <- get ;;
  match _executor self with
  | None =>
      pool <- _create_executor ;;
      modify (set__executor (Some pool)) ;;
      logger INFO (ExecutorStarted (executor_class self) (workers_or_auto (max_workers self)))
  | Some _ => ret tt
  end.

(** [self._executor.submit(fn, *args, **kwargs)] *)
Definition pool_submit (job : Job) : M BaseExecutor Future :=
  self <- get ;;
  match _executor self with
  | None => raise (mkExc AttributeError "'NoneType' object has no attribute 'submit'")
  | Some pool =>
      b <- the_backend ;;
      match pool_submit_error b pool job with
      | Some e => raise e
      | None =>
          modify (set__executor
                    (Some (mkPool (pool_kind pool) (pool_max_workers pool)
                                  (pool_jobs pool ++ [job])))) ;;
          ret (mkFuture job (length (pool_jobs pool)))
      end
  end.

Definition BaseExecutor_submit (fn : Callable) (a : Args) (k : Kwargs) : M BaseExecutor Future :=
  self <- get ;;
  match _executor self with
  | None => BaseExecutor_start
  | Some _ => ret tt
  end ;;
  try_except
    (future <- pool_submit (mkJob fn a k) ;;
     ret future)
    (fun e =>
       logger ERROR (FailedToSubmitTask e) ;;
       raise e).

(** Calling a function with [**kwargs]: a keyword that names one of its
    parameters is a [TypeError] (got multiple values for the argument). *)
Definition names_parameter (params : list string) (k : Kwargs) : bool :=
  existsb (fun kv => existsb (String.eqb (fst kv)) params) k.

(** The call [executor.submit(fn, *args, **kwargs)] of the method
    [submit(self, fn, *args, **kwargs)], as the tick makes it with the
    keywords stored in an entry or a queue item.  The methods that pass
    on the keywords of their own caller ([submit_instant_task],
    [submit_task], [delay]) are given below for keywords that bind at
    every call on the way to the pool, those that name none of [self],
    [task] and [fn]. *)
Definition Executor_submit_call (fn : Callable) (a : Args) (k : Kwargs)
    : M BaseExecutor Future :=
  if names_parameter ["self"; "fn"]%string k
  then raise (mkExc TypeError "submit() got multiple values for argument")
  else BaseExecutor_submit fn a k.

(** [self._executor.shutdown(wait=wait)] *)
Definition pool_shutdown (wait : bool) : M BaseExecutor unit :=
  self <- get ;;
  match _executor self with
  | None => raise (mkExc AttributeError "'NoneType' object has no attribute 'shutdown'")
  | Some pool =>
      b <- the_backend ;;
      match pool_shutdown_error b pool wait with
      | Some e => raise e
      | None => ret tt
      end
  end.

Definition BaseExecutor_shutdown (wait : bool) (timeout : option Q) : M BaseExecutor unit :=
  self <- get ;;
  match _executor self with
  | Some _ =>
      logger INFO (ShuttingDownExecutor (executor_class self)) ;;
      try_finally
        (try_except
           (pool_shutdown wait)
           (fun e => logger ERROR (ErrorDuringExecutorShutdown e)))
        (modify (set__executor None))
  | None => ret tt
  end.

Definition create_executor (threading : bool) (mw : option Z) : BaseExecutor :=
  if threading
  then BaseExecutor_init ThreadPool mw
  else BaseExecutor_init ProcessPool mw.

(** ** scheduler.py *)

Definition QueueItem : Type := (Task * Args * Kwargs)%type.

Record Scheduler : Type := mkScheduler {
  executor : BaseExecutor;
  scheduled_entries : list (string * TaskEntry);   (* a dict, in insertion order *)
  instant_queue : list QueueItem;                  (* a queue.Queue, head first *)
  running : bool
}.

Definition Scheduler_init (ex : BaseExecutor) : Scheduler :=
  {| executor := ex; scheduled_entries := []; instant_queue := []; running := false |}.

Definition set_executor (ex : BaseExecutor) (self : Scheduler) : Scheduler :=
  {| executor := ex; scheduled_entries := scheduled_entries self;
     instant_queue := instant_queue self; running := running self |}.

Definition set_scheduled_entries (d : list (string * TaskEntry)) (self : Scheduler) : Scheduler :=
  {| executor := executor self; scheduled_entries := d;
     instant_queue := instant_queue self; running := running self |}.

Definition set_instant_queue (q : list QueueItem) (self : Scheduler) : Scheduler :=
  {| executor := executor self; scheduled_entries := scheduled_entries self;
     instant_queue := q; running := running self |}.

Definition set_running (b : bool) (self : Scheduler) : Scheduler :=
  {| executor := executor self; scheduled_entries := scheduled_entries self;
     instant_queue := instant_queue self; running := b |}.

(** [d[key] = value]: an existing key keeps its place, a new one goes last. *)
Fixpoint dict_set {V} (key : string) (value : V) (d : list (string * V)) : list (string * V) :=
  match d with
  | [] => [(key, value)]
  | (k, v) :: rest =>
      if String.eqb k key then (key, value) :: rest
      else (k, v) :: dict_set key value rest
  end.

Definition Scheduler_add_scheduled_task (task_entry : TaskEntry) : M Scheduler unit :=
  modify (fun self =>
            set_scheduled_entries
              (dict_set (id task_entry) task_entry (scheduled_entries self)) self) ;;
  logger INFO (ScheduledTaskAdded (name (task task_entry)) (schedule task_entry)).

Definition Scheduler_submit_instant_task (t : Task) (a : Args) (k : Kwargs) : M Scheduler Future :=
  future <- zoom executor set_executor (BaseExecutor_submit (Task_run t) a k) ;;
  logger DEBUG (InstantTaskSubmitted (name t)) ;;
  ret future.

Definition Qlt_bool (x y : Q) : bool := negb (Qle_bool y x).

(** [if next_wake is None or remaining < next_wake: next_wake = remaining] *)
Definition update_next_wake (next_wake : option Q) (remaining : Q) : option Q :=
  match next_wake with
  | None => Some remaining
  | Some w => if Qlt_bool remaining w then Some remaining else Some w
  end.

(** One iteration of [for entry in self.scheduled_entries.values()]; the
    entry is mutated in place, so the iteration returns it. *)
Definition tick_entry (entry : TaskEntry) (next_wake : option Q)
    : M Scheduler (TaskEntry * option Q) :=
  '(due, remaining) <- TaskEntry_is_due entry ;;
  entry' <-
    (if due : bool then
       logger INFO (RunningScheduledTask (name (task entry))) ;;
       try_except
         (_ <- zoom executor set_executor
                 (Executor_submit_call (Task_run (task entry)) (args entry) (kwargs entry)) ;;
          now <- time_time ;;
          ret (set_last_run_at (Some now) entry))
         (fun e =>
            logger ERROR (FailedToSubmitScheduledTask (name (task entry)) e) ;;
            ret entry)
     else ret entry) ;;
  ret (entry', update_next_wake next_wake remaining).

Fixpoint tick_entries (entries : list (string * TaskEntry)) (next_wake : option Q)
    : M Scheduler (list (string * TaskEntry) * option Q) :=
  match entries with
  | [] => ret ([], next_wake)
  | (key, entry) :: rest =>
      '(entry', next_wake') <- tick_entry entry next_wake ;;
      '(rest', next_wake'') <- tick_entries rest next_wake' ;;
      ret ((key, entry') :: rest', next_wake'')
  end.

(** [while True: task, args, kwargs = self.instant_queue.get_nowait(); ...]:
    each turn removes the head of the queue, and on the empty queue
    [get_nowait] raises [queue.Empty]. *)
Fixpoint drain_instant_queue (pending : list QueueItem) : M Scheduler unit :=
  match pending with
  | [] => raise (mkExc QueueEmpty "")
  | (t, a, k) :: rest =>
      modify (set_instant_queue rest) ;;
      logger DEBUG (ProcessingInstantTask (name t)) ;;
      try_except
        (_ <- zoom executor set_executor (Executor_submit_call (Task_run t) a k) ;;
         ret tt)
        (fun e => logger ERROR (FailedToSubmitInstantTask (name t) e)) ;;
      drain_instant_queue rest
  end.

(** [next_wake or 1.0]: [None] and [0] are falsy. *)
Definition or_default (x : option Q) (d : Q) : Q :=
  match x with
  | None => d
  | Some v => if Qeq_bool v 0 then d else v
  end.

(** [min(a, b)]: the first argument unless the second is strictly smaller. *)
Definition py_min (a b : Q) : Q := if Qlt_bool b a then b else a.

Definition Scheduler_tick : M Scheduler Q :=
  entries <- gets scheduled_entries ;;
  '(entries', next_wake) <- tick_entries entries None ;;
  modify (set_scheduled_entries entries') ;;
  try_except_class QueueEmpty
    (pending <- gets instant_queue ;;
     drain_instant_queue pending)
    (ret tt) ;;
  ret (py_min (or_default next_wake 1) 1).

(** [if self.executor:] holds for every executor object. *)
Definition Scheduler_shutdown : M Scheduler unit :=
  logger INFO ShuttingDownScheduler ;;
  modify (set_running false) ;;
  zoom executor set_executor (BaseExecutor_shutdown true None) ;;
  logger INFO SchedulerShutdownComplete.

(** ** app.py: the path of an instant submission *)

Record ChewyTask : Type := mkChewyTask {
  app_max_workers : option Z;
  task_timeout : option Q;
  _tasks : list (string * Task);
  _scheduler : option Scheduler;   (* its [executor] is the app's [_executor] *)
  _started : bool
}.

Definition ChewyTask_init (mw : option Z) (tt_ : option Q) : ChewyTask :=
  {| app_max_workers := mw; task_timeout := tt_; _tasks := [];
     _scheduler := None; _started := false |}.

Definition set__scheduler (s : option Scheduler) (self : ChewyTask) : ChewyTask :=
  {| app_max_workers := app_max_workers self; task_timeout := task_timeout self;
     _tasks := _tasks self; _scheduler := s; _started := _started self |}.

Definition ChewyTask__ensure_scheduler_initialized (threading : bool) : M ChewyTask unit :=
  self <- get ;;
  match _scheduler self with
  | None =>
      modify (set__scheduler
                (Some (Scheduler_init (create_executor threading (app_max_workers self))))) ;;
      logger DEBUG SchedulerInitialized
  | Some _ => ret tt
  end.

Definition ChewyTask_submit_task (t : Task) (a : Args) (k : Kwargs) : M ChewyTask Future :=
  ChewyTask__ensure_scheduler_initialized true ;;
  self <- get ;;
  match _scheduler self with
  | Some s =>
      zoom (fun _ => s) (fun s' => set__scheduler (Some s'))
        (Scheduler_submit_instant_task t a k)
  | None => raise (mkExc RuntimeError "Scheduler not initialized")
  end.

(** The application objects a task may point back to. *)
Definition Heap : Type := AppRef -> ChewyTask.

Definition heap_set (r : AppRef) (a : ChewyTask) (h : Heap) : Heap :=
  fun r' => if Nat.eqb r' r then a else h r'.

Definition unbound_message (task_name : string) : string :=
  String.append "Task '"
    (String.append task_name
       "' is not bound to any ChewyTask application. Make sure to use @app.task decorator.").

Definition Task_delay (self : Task) (a : Args) (k : Kwargs) : M Heap Future :=
  match app self with
  | None => raise (mkExc RuntimeError (unbound_message (name self)))
  | Some r => zoom (fun h => h r) (heap_set r) (ChewyTask_submit_task self a k)
  end.



(** ** Concrete worlds used by the examples *)

Definition accepting_backend : Backend :=
  mkBackend (fun _ _ => None) (fun _ _ => None) (fun _ _ => None).

(** A pool that refuses every job of the task named [refused]. *)
Definition refusing_backend (refused : string) : Backend :=
  mkBackend (fun _ _ => None)
    (fun _ job =>
       match job_fn job with
       | Task_run t =>
           if String.eqb (name t) refused
           then Some (mkExc PoolError "cannot schedule new futures")
           else None
       end)
    (fun _ _ => None).

(** Arithmetic that never rounds. *)
Definition exact_fpu : FloatUnit.
Proof.
  refine (mkFloatUnit Qplus Qminus _ _); intros x y; [split; intro H|intro H]; lra.
Defined.

(** Arithmetic in which an addend below 1 is lost, as [1e-7] is lost
    when added to [1.7e9]. *)
Definition absorbing_fpu : FloatUnit.
Proof.
  refine (mkFloatUnit (fun x y => if Qle_bool 1 y then x + y else x) Qminus _ _);
    intros x y; [split; intro H; lra|intro H].
  destruct (Qle_bool 1 y); lra.
Defined.

Definition frozen_sys (now : Q) (b : Backend) : Sys :=
  {| time_src := fun _ => now; time_idx := 0; backend := b; fpu := exact_fpu;
     log := [] |}.

Definition example_task (nm : string) (a : option AppRef) : Task :=
  Task_init (mkFunc nm) None a.

Definition example_entry (nm : string) (every : Q) (last : option Q) : TaskEntry :=
  set_last_run_at last
    (TaskEntry_init nm (example_task nm (Some 0%nat)) (mkIntervalSchedule every) None None).

Definition example_scheduler (entries : list TaskEntry) (queue : list QueueItem) : Scheduler :=
  {| executor := create_executor true None;
     scheduled_entries := map (fun e => (id e, e)) entries;
     instant_queue := queue;
     running := false |}.

(** A heap of applications just created. *)
Definition fresh_heap : Heap := fun _ => ChewyTask_init None None.

(** Two entries with 0.4 and 3.0 left to wait at time 10, and two with
    5.0 and 8.0 left. *)
Definition registry_near : Scheduler :=
  example_scheduler
    [example_entry "a" 1 (Some (47 # 5)); example_entry "b" 4 (Some 9)] [].

Definition registry_far : Scheduler :=
  example_scheduler
    [example_entry "a" 6 (Some 9); example_entry "b" 8 (Some 10)] [].

(** ** What an observer of a run sees *)

(** The jobs the executor's pool has accepted so far. *)
Definition accepted_jobs (ex : BaseExecutor) : list Job :=
  match _executor ex with
  | None => []
  | Some pool => pool_jobs pool
  end.

(** What the tick hands to the executor for an entry, for a queue item. *)
Definition entry_job (e : TaskEntry) : Job :=
  mkJob (Task_run (task e)) (args e) (kwargs e).

Definition item_job (it : QueueItem) : Job :=
  match it with (t, a, k) => mkJob (Task_run t) a k end.

(** The scheduler and the world once the loop of [tick] is done with an entry. *)
Definition after_entry (e : TaskEntry) (self : Scheduler) (sys : Sys) : Scheduler * Sys :=
  let r := tick_entry e None self sys in (state_of r, sys_of r).

(** The [remaining] value [is_due] reports for each entry of the registry
    during a tick started in [self], [sys]: every entry is asked at the
    clock value of its own turn. *)
Fixpoint remaining_times (entries : list (string * TaskEntry)) (self : Scheduler) (sys : Sys)
    : list Q :=
  match entries with
  | [] => []
  | (_, e) :: rest =>
      snd (is_due_at (fpu sys) e (clock_now sys))
      :: remaining_times rest (fst (after_entry e self sys)) (snd (after_entry e self sys))
  end.

(** The scheduler and the world once the loop is done with all of [entries]. *)
Fixpoint after_entries (entries : list (string * TaskEntry)) (self : Scheduler) (sys : Sys)
    : Scheduler * Sys :=
  match entries with
  | [] => (self, sys)
  | (_, e) :: rest =>
      after_entries rest (fst (after_entry e self sys)) (snd (after_entry e self sys))
  end.

(** The entries found due during that tick, in the order of their turns. *)
Fixpoint due_entries (entries : list (string * TaskEntry)) (self : Scheduler) (sys : Sys)
    : list TaskEntry :=
  match entries with
  | [] => []
  | (_, e) :: rest =>
      let tail := due_entries rest (fst (after_entry e self sys)) (snd (after_entry e self sys)) in
      if fst (is_due_at (fpu sys) e (clock_now sys)) then e :: tail else tail
  end.

(** [sub] keeps some elements of [l], in their order. *)
Inductive kept_in_order {A} : list A -> list A -> Prop :=
| kept_nil : kept_in_order [] []
| kept_take x sub l : kept_in_order sub l -> kept_in_order (x :: sub) (x :: l)
| kept_drop x sub l : kept_in_order sub l -> kept_in_order sub (x :: l).

(** The records by which [tick] announces a dispatch. *)
Definition is_announcement (r : LogRecord) : bool :=
  match snd r with
  | RunningScheduledTask _ | ProcessingInstantTask _ => true
  | _ => false
  end.

Definition announcements (l : list LogRecord) : list Message :=
  map snd (filter is_announcement l).

(** The records [Executor.submit] itself writes. *)
Definition executor_record (r : LogRecord) : Prop :=
  match snd r with
  | ExecutorStarted _ _ | FailedToSubmitTask _ => True
  | _ => False
  end.

(** The announcement of an entry, of a queue item. *)
Definition running_record (e : TaskEntry) : Message :=
  RunningScheduledTask (name (task e)).

Definition processing_record (it : QueueItem) : Message :=
  ProcessingInstantTask (name (fst (fst it))).

(** The instant queue of an application (empty before it has a scheduler). *)
Definition app_queue (a : ChewyTask) : list QueueItem :=
  match _scheduler a with
  | Some s => instant_queue s
  | None => []
  end.

(** [d.get(key)] on a dict. *)
Fixpoint dict_get {V} (key : string) (d : list (string * V)) : option V :=
  match d with
  | [] => None
  | (k, v) :: rest => if String.eqb k key then Some v else dict_get key rest
  end.

(** The jobs accepted by the pool of an application (none before it has
    a scheduler). *)
Definition app_jobs (a : ChewyTask) : list Job :=
  match _scheduler a with
  | Some s => accepted_jobs (executor s)
  | None => []
  end.

(** A backend whose pools can always be built and accept every job. *)
Definition accepting (b : Backend) : Prop :=
  (forall cls mw, pool_init_error b cls mw = None) /\
  (forall pool job, pool_submit_error b pool job = None).

(** A clock that never runs backwards. *)
Definition clock_monotone (sys : Sys) : Prop :=
  forall i j : nat, (i <= j)%nat -> time_src sys i <= time_src sys j.

(** What a tick may do to an entry: nothing, or stamp [last_run_at]. *)
Definition stamped_or_same (before after : string * TaskEntry) : Prop :=
  fst after = fst before /\
  (snd after = snd before \/
   exists t, snd after = set_last_run_at (Some t) (snd before)).

(** [last_run_at] did not move backwards. *)
Definition not_earlier (before after : string * TaskEntry) : Prop :=
  match last_run_at (snd before) with
  | None => True
  | Some l => exists l', last_run_at (snd after) = Some l' /\ l <= l'
  end.

(** Backends whose pools cannot be built, or fail to shut down. *)
Definition init_failing_backend : Backend :=
  mkBackend (fun _ _ => Some (mkExc ValueError "max_workers must be greater than 0"))
    (fun _ _ => None) (fun _ _ => None).

Definition shutdown_failing_backend : Backend :=
  mkBackend (fun _ _ => None) (fun _ _ => None)
    (fun _ _ => Some (mkExc PoolError "shutdown failed")).

(** Keywords the call of [Executor.submit] can take. *)
Definition bindable (k : Kwargs) : Prop :=
  names_parameter ["self"; "fn"]%string k = false.

Definition all_bindable (self : Scheduler) : Prop :=
  Forall (fun ke => bindable (kwargs (snd ke))) (scheduled_entries self) /\
  Forall (fun it => bindable (snd it)) (instant_queue self).

(** The executor once [job] has been handed to it by such a call, and
    once a list of jobs has been, one after the other. *)
Definition executor_after (sys : Sys) (ex : BaseExecutor) (job : Job) : BaseExecutor :=
  state_of (Executor_submit_call (job_fn job) (job_args job) (job_kwargs job) ex sys).

Definition submitted_in_turn (sys : Sys) (jobs : list Job) (ex : BaseExecutor)
    : BaseExecutor :=
  fold_left (executor_after sys) jobs ex.

(** * Properties *)

(** ** Comparisons *)

Lemma Qlt_bool_iff (x y : Q) : Qlt_bool x y = true <-> x < y.
Proof.
  unfold Qlt_bool. rewrite negb_true_iff. split; intro H.
  - apply Qnot_le_lt. intro Hle. apply Qle_bool_iff in Hle. congruence.
  - destruct (Qle_bool y x) eqn:E; [|reflexivity].
    apply Qle_bool_iff in E. exfalso. apply (Qlt_not_le _ _ H E).
Qed.

Lemma Qlt_bool_false_iff (x y : Q) : Qlt_bool x y = false <-> y <= x.
Proof.
  unfold Qlt_bool. rewrite negb_false_iff. apply Qle_bool_iff.
Qed.

Lemma Qle_bool_false_iff (x y : Q) : Qle_bool x y = false <-> y < x.
Proof.
  rewrite <- Qlt_bool_iff. unfold Qlt_bool. now rewrite negb_true_iff.
Qed.

(** ** The due-time rule *)

Lemma is_due_at_never_run (u : FloatUnit) (self : TaskEntry) (now : Q) :
  last_run_at self = None ->
  is_due_at u self now = (true, interval (schedule self)).
Proof. unfold is_due_at. now intros ->. Qed.

Lemma is_due_at_elapsed (u : FloatUnit) (self : TaskEntry) (now last : Q) :
  last_run_at self = Some last ->
  fadd u last (interval (schedule self)) <= now ->
  is_due_at u self now = (true, interval (schedule self)).
Proof.
  unfold is_due_at. intros -> H.
  replace (Qle_bool _ 0) with true; [reflexivity|].
  symmetry. apply Qle_bool_iff. now apply fsub_sign.
Qed.

Lemma is_due_at_pending (u : FloatUnit) (self : TaskEntry) (now last : Q) :
  last_run_at self = Some last ->
  now < fadd u last (interval (schedule self)) ->
  is_due_at u self now
  = (false, fsub u (fadd u last (interval (schedule self))) now).
Proof.
  unfold is_due_at. intros -> H.
  replace (Qle_bool _ 0) with false; [reflexivity|].
  symmetry. apply Qle_bool_false_iff. apply Qnot_le_lt. intro Hle.
  apply fsub_sign in Hle. apply (Qlt_not_le _ _ H Hle).
Qed.

Lemma TaskEntry_is_due_run {St} (self : TaskEntry) (st : St) (sys : Sys) :
  TaskEntry_is_due self st sys
  = (Return (is_due_at (fpu sys) self (clock_now sys)), st, advance_clock sys).
Proof. reflexivity. Qed.

(** C3. With [now] the value [time.time()] gives to [is_due], and [+]
    and [-] the operations of doubles: an entry that never ran is due and
    reports its interval; an entry last run at [last] is due, reporting
    its interval, once [now >= next] for [next = last + interval], and
    before that is not due and reports [next - now].  The entry itself is
    not changed by the call. *)
Theorem TaskEntry_is_due_spec {St} (self : TaskEntry) (st : St) (sys : Sys) :
  0 < interval (schedule self) ->
  let now := clock_now sys in
  let r := TaskEntry_is_due self st sys in
  state_of r = st /\
  (last_run_at self = None ->
   outcome r = Return (true, interval (schedule self))) /\
  (forall last, last_run_at self = Some last ->
     let next := fadd (fpu sys) last (interval (schedule self)) in
     (now >= next -> outcome r = Return (true, interval (schedule self))) /\
     (now < next -> outcome r = Return (false, fsub (fpu sys) next now))).
Proof.
  intros _ now r. subst r now. rewrite TaskEntry_is_due_run.
  cbv [outcome state_of fst snd]. split; [reflexivity|]. split.
  - intro H. now rewrite is_due_at_never_run.
  - intros last H. cbv zeta. split; intro Hcmp.
    + now rewrite (is_due_at_elapsed _ _ _ _ H Hcmp).
    + now rewrite (is_due_at_pending _ _ _ _ H Hcmp).
Qed.

(** An entry of interval 2 dispatched at 10, asked at 11: one more unit
    to wait. *)
Lemma TaskEntry_is_due_spec_witness :
  0 < interval (schedule (example_entry "job" 2 (Some 10))) /\
  outcome (TaskEntry_is_due (example_entry "job" 2 (Some 10)) tt
             (frozen_sys 11 accepting_backend))
  = Return (false, 10 + 2 - 11).
Proof.
  assert (Hpos : 0 < interval (schedule (example_entry "job" 2 (Some 10))))
    by (vm_compute; reflexivity).
  split; [exact Hpos|].
  refine (proj2 (proj2 (proj2
            (TaskEntry_is_due_spec (example_entry "job" 2 (Some 10)) tt
               (frozen_sys 11 accepting_backend) Hpos)) 10 eq_refl) _).
  vm_compute; reflexivity.
Defined.

Example is_due_first_run :
  is_due_at exact_fpu (example_entry "job" 2 None) 5 = (true, 2).
Proof. reflexivity. Qed.

Example is_due_at_deadline :
  is_due_at exact_fpu (example_entry "job" 2 (Some 10)) 12 = (true, 2).
Proof. reflexivity. Qed.

(** Where the interval is lost in the sum, as for [last = now = 2**53]
    and interval 1.0, the entry is due at once: [next] is [last]. *)
Example is_due_interval_absorbed :
  is_due_at absorbing_fpu (example_entry "job" (1 # 2) (Some 10)) 10 = (true, 1 # 2).
Proof. reflexivity. Qed.

(** ** The executor *)

Ltac unfold_method :=
  cbv [BaseExecutor_submit BaseExecutor_start BaseExecutor_shutdown
       _create_executor pool_submit pool_shutdown
       bind ret raise get gets modify try_except try_finally the_backend logger
       outcome state_of sys_of fst snd].

Ltac split_match :=
  repeat match goal with
         | |- context [match ?x with _ => _ end] => destruct x eqn:?
         end.

(** [submit] on an executor that holds no pool. *)
Lemma BaseExecutor_submit_unstarted (fn : Callable) (a : Args) (k : Kwargs)
    (self : BaseExecutor) (sys : Sys) :
  _executor self = None ->
  BaseExecutor_submit fn a k self sys =
  match pool_init_error (backend sys) (executor_class self) (max_workers self) with
  | Some e => (Raise e, self, sys)
  | None =>
      let fresh := mkPool (executor_class self) (max_workers self) [] in
      let sys1 :=
        add_log (INFO, ExecutorStarted (executor_class self)
                         (workers_or_auto (max_workers self))) sys in
      match pool_submit_error (backend sys) fresh (mkJob fn a k) with
      | Some e =>
          (Raise e, set__executor (Some fresh) self,
           add_log (ERROR, FailedToSubmitTask e) sys1)
      | None =>
          (Return (mkFuture (mkJob fn a k) 0),
           set__executor
             (Some (mkPool (executor_class self) (max_workers self) [mkJob fn a k])) self,
           sys1)
      end
  end.
Proof.
  destruct self as [cls mw pool0]; simpl. intros ->. unfold_method. simpl.
  destruct (pool_init_error _ _ _); [reflexivity|]. simpl.
  destruct (pool_submit_error _ _ _); reflexivity.
Qed.

(** [submit] on an executor whose pool runs. *)
Lemma BaseExecutor_submit_started (fn : Callable) (a : Args) (k : Kwargs)
    (self : BaseExecutor) (sys : Sys) (pool : Pool) :
  _executor self = Some pool ->
  BaseExecutor_submit fn a k self sys =
  match pool_submit_error (backend sys) pool (mkJob fn a k) with
  | Some e => (Raise e, self, add_log (ERROR, FailedToSubmitTask e) sys)
  | None =>
      (Return (mkFuture (mkJob fn a k) (length (pool_jobs pool))),
       set__executor
         (Some (mkPool (pool_kind pool) (pool_max_workers pool)
                       (pool_jobs pool ++ [mkJob fn a k]))) self,
       sys)
  end.
Proof.
  destruct self as [cls mw pool0]; simpl. intros ->. unfold_method. simpl.
  destruct (pool_submit_error _ _ _); reflexivity.
Qed.

Lemma BaseExecutor_shutdown_run (wait : bool) (timeout : option Q)
    (self : BaseExecutor) (sys : Sys) :
  outcome (BaseExecutor_shutdown wait timeout self sys) = Return tt /\
  state_of (BaseExecutor_shutdown wait timeout self sys) = set__executor None self /\
  backend (sys_of (BaseExecutor_shutdown wait timeout self sys)) = backend sys.
Proof.
  unfold_method. destruct self as [cls mw [pool|]]; simpl.
  - destruct (pool_shutdown_error _ _ _); simpl; auto.
  - auto.
Qed.

(** What a call of [submit] leaves untouched, and what it adds. *)
Lemma BaseExecutor_submit_effect (fn : Callable) (a : Args) (k : Kwargs)
    (self : BaseExecutor) (sys : Sys) :
  let r := BaseExecutor_submit fn a k self sys in
  time_src (sys_of r) = time_src sys /\
  time_idx (sys_of r) = time_idx sys /\
  backend (sys_of r) = backend sys /\
  (exists extra, log (sys_of r) = log sys ++ extra /\ Forall executor_record extra) /\
  match outcome r with
  | Return fut =>
      accepted_jobs (state_of r) = accepted_jobs self ++ [mkJob fn a k] /\
      fut = mkFuture (mkJob fn a k) (length (accepted_jobs self))
  | Raise _ => accepted_jobs (state_of r) = accepted_jobs self
  end.
Proof.
  cbv zeta. destruct (_executor self) as [pool|] eqn:E.
  - rewrite (BaseExecutor_submit_started _ _ _ _ _ _ E).
    unfold accepted_jobs. rewrite E.
    destruct (pool_submit_error _ _ _); cbv [outcome state_of sys_of fst snd]; simpl.
    + repeat split; auto.
      * exists [(ERROR, FailedToSubmitTask e)]. split; [reflexivity|].
        repeat constructor.
      * now rewrite E.
    + repeat split; auto. exists []. now rewrite app_nil_r.
  - rewrite (BaseExecutor_submit_unstarted _ _ _ _ _ E).
    unfold accepted_jobs. rewrite E.
    destruct (pool_init_error _ _ _); cbv [outcome state_of sys_of fst snd]; simpl.
    + repeat split; auto.
      * exists []. now rewrite app_nil_r.
      * now rewrite E.
    + destruct (pool_submit_error _ _ _); simpl.
      * repeat split; auto.
        eexists [_; _]. rewrite <- app_assoc. split; [reflexivity|].
        repeat constructor.
      * repeat split; auto.
        eexists [_]. split; [reflexivity|]. repeat constructor.
Qed.

Lemma BaseExecutor_submit_fpu (fn : Callable) (a : Args) (k : Kwargs)
    (self : BaseExecutor) (sys : Sys) :
  fpu (sys_of (BaseExecutor_submit fn a k self sys)) = fpu sys.
Proof.
  destruct (_executor self) as [pool|] eqn:E.
  - rewrite (BaseExecutor_submit_started _ _ _ _ _ _ E).
    destruct (pool_submit_error _ _ _); reflexivity.
  - rewrite (BaseExecutor_submit_unstarted _ _ _ _ _ E).
    destruct (pool_init_error _ _ _); [reflexivity|]. cbv zeta.
    destruct (pool_submit_error _ _ _); reflexivity.
Qed.

(** A call that cannot bind its keywords changes nothing. *)
Lemma Executor_submit_call_unbound (fn : Callable) (a : Args) (k : Kwargs)
    (self : BaseExecutor) (sys : Sys) :
  names_parameter ["self"; "fn"]%string k = true ->
  Executor_submit_call fn a k self sys
  = (Raise (mkExc TypeError "submit() got multiple values for argument"), self, sys).
Proof. unfold Executor_submit_call. now intros ->. Qed.

Lemma Executor_submit_call_bound (fn : Callable) (a : Args) (k : Kwargs)
    (self : BaseExecutor) (sys : Sys) :
  bindable k ->
  Executor_submit_call fn a k self sys = BaseExecutor_submit fn a k self sys.
Proof. unfold Executor_submit_call, bindable. now intros ->. Qed.

Lemma Executor_submit_call_effect (fn : Callable) (a : Args) (k : Kwargs)
    (self : BaseExecutor) (sys : Sys) :
  let r := Executor_submit_call fn a k self sys in
  time_src (sys_of r) = time_src sys /\
  time_idx (sys_of r) = time_idx sys /\
  backend (sys_of r) = backend sys /\
  (exists extra, log (sys_of r) = log sys ++ extra /\ Forall executor_record extra) /\
  match outcome r with
  | Return fut =>
      accepted_jobs (state_of r) = accepted_jobs self ++ [mkJob fn a k] /\
      fut = mkFuture (mkJob fn a k) (length (accepted_jobs self))
  | Raise _ => accepted_jobs (state_of r) = accepted_jobs self
  end.
Proof.
  cbv zeta. unfold Executor_submit_call.
  destruct (names_parameter _ k).
  - unfold raise. cbv [outcome state_of sys_of fst snd]. repeat split.
    exists []. rewrite app_nil_r. split; [reflexivity|constructor].
  - apply BaseExecutor_submit_effect.
Qed.

Lemma Executor_submit_call_fpu (fn : Callable) (a : Args) (k : Kwargs)
    (self : BaseExecutor) (sys : Sys) :
  fpu (sys_of (Executor_submit_call fn a k self sys)) = fpu sys.
Proof.
  unfold Executor_submit_call. destruct (names_parameter _ k); [reflexivity|].
  apply BaseExecutor_submit_fpu.
Qed.

(** C1 (as the code has it). [shutdown] returns and clears the pool
    reference; a later [submit] is not refused on that account: finding
    no pool, it starts a new one and hands the job to it, and it raises
    only what the constructor of the pool or the pool's [submit] raises. *)
Theorem BaseExecutor_submit_after_shutdown (wait : bool) (timeout : option Q)
    (fn : Callable) (a : Args) (k : Kwargs) (self : BaseExecutor) (sys : Sys) :
  let r1 := BaseExecutor_shutdown wait timeout self sys in
  let r2 := BaseExecutor_submit fn a k (state_of r1) (sys_of r1) in
  let job := mkJob fn a k in
  outcome r1 = Return tt /\
  _executor (state_of r1) = None /\
  match pool_init_error (backend sys) (executor_class self) (max_workers self) with
  | Some e => outcome r2 = Raise e
  | None =>
      match pool_submit_error (backend sys)
              (mkPool (executor_class self) (max_workers self) []) job with
      | Some e => outcome r2 = Raise e
      | None =>
          outcome r2 = Return (mkFuture job 0) /\
          _executor (state_of r2)
          = Some (mkPool (executor_class self) (max_workers self) [job])
      end
  end.
Proof.
  cbv zeta.
  destruct (BaseExecutor_shutdown_run wait timeout self sys) as (Hret & Hst & Hb).
  split; [exact Hret|]. rewrite Hst. split; [reflexivity|].
  rewrite BaseExecutor_submit_unstarted by reflexivity.
  rewrite Hb. simpl.
  destruct (pool_init_error _ _ _); [reflexivity|].
  destruct (pool_submit_error _ _ _); [reflexivity|].
  split; reflexivity.
Qed.

(** C1 (as the spec has it) fails: an executor that ran a job and was
    shut down accepts the next job, in a new pool. *)
Lemma submit_after_shutdown_is_accepted :
  let sys := frozen_sys 0 accepting_backend in
  let first := mkJob (Task_run (example_task "first" None)) [] [] in
  let job := mkJob (Task_run (example_task "late" None)) [VInt 1] [] in
  let r0 := BaseExecutor_submit (job_fn first) [] [] (create_executor true None) sys in
  let r1 := BaseExecutor_shutdown true None (state_of r0) (sys_of r0) in
  let r2 := BaseExecutor_submit (job_fn job) [VInt 1] [] (state_of r1) (sys_of r1) in
  accepted_jobs (state_of r0) = [first] /\
  _executor (state_of r1) = None /\
  outcome r2 = Return (mkFuture job 0) /\
  accepted_jobs (state_of r2) = [job] /\
  ~ (exists e, outcome r2 = Raise e).
Proof.
  cbv zeta. repeat split; try reflexivity.
  intros [e H]. vm_compute in H. discriminate H.
Qed.

(** ** Instant submission *)

Lemma Scheduler_submit_instant_task_run (t : Task) (a : Args) (k : Kwargs)
    (self : Scheduler) (sys : Sys) :
  Scheduler_submit_instant_task t a k self sys =
  match BaseExecutor_submit (Task_run t) a k (executor self) sys with
  | (Return future, ex', sys') =>
      (Return future, set_executor ex' self,
       add_log (DEBUG, InstantTaskSubmitted (name t)) sys')
  | (Raise e, ex', sys') => (Raise e, set_executor ex' self, sys')
  end.
Proof.
  unfold Scheduler_submit_instant_task, bind, zoom, logger, ret.
  destruct (BaseExecutor_submit _ _ _ _ _) as [[[future|e] ex'] sys']; reflexivity.
Qed.

(** C2 (as the code has it). [submit_instant_task] never reads the
    [running] flag: it returns or raises exactly what [Executor.submit]
    returns or raises on the scheduler's executor (which starts its pool
    when it has none), and it leaves the flag as it was. *)
Theorem Scheduler_submit_instant_task_ignores_running (t : Task) (a : Args) (k : Kwargs)
    (self : Scheduler) (sys : Sys) :
  let r := Scheduler_submit_instant_task t a k self sys in
  let rx := BaseExecutor_submit (Task_run t) a k (executor self) sys in
  outcome r = outcome rx /\
  executor (state_of r) = state_of rx /\
  running (state_of r) = running self /\
  forall b : bool,
    outcome (Scheduler_submit_instant_task t a k (set_running b self) sys) = outcome r.
Proof.
  cbv zeta. repeat split; try intros b;
    rewrite !Scheduler_submit_instant_task_run;
    try change (executor (set_running b self)) with (executor self);
    destruct (BaseExecutor_submit _ _ _ _ _) as [[[future|e] ex'] sys'];
    reflexivity.
Qed.

(** C2 (as the spec has it) fails: a scheduler that was never started,
    with an executor that has no pool, accepts an instant task. *)
Lemma submit_instant_task_accepted_when_stopped :
  let self := Scheduler_init (create_executor true None) in
  let t := example_task "report" (Some 0%nat) in
  let r := Scheduler_submit_instant_task t [VInt 7] [] self (frozen_sys 0 accepting_backend) in
  running self = false /\
  _executor (executor self) = None /\
  outcome r = Return (mkFuture (mkJob (Task_run t) [VInt 7] []) 0) /\
  accepted_jobs (executor (state_of r)) = [mkJob (Task_run t) [VInt 7] []] /\
  ~ (exists e, outcome r = Raise e).
Proof.
  cbv zeta. repeat split; try reflexivity.
  intros [e H]. vm_compute in H. discriminate H.
Qed.

(** ** One turn of the loop over the registry *)

Lemma tick_entry_run (entry : TaskEntry) (next_wake : option Q)
    (self : Scheduler) (sys : Sys) :
  tick_entry entry next_wake self sys =
  let sys1 := advance_clock sys in
  let remaining := snd (is_due_at (fpu sys) entry (clock_now sys)) in
  let next_wake' := update_next_wake next_wake remaining in
  if fst (is_due_at (fpu sys) entry (clock_now sys)) then
    match Executor_submit_call (Task_run (task entry)) (args entry) (kwargs entry)
            (executor self)
            (add_log (INFO, RunningScheduledTask (name (task entry))) sys1) with
    | (Return _, ex', sys2) =>
        (Return (set_last_run_at (Some (clock_now sys2)) entry, next_wake'),
         set_executor ex' self, advance_clock sys2)
    | (Raise e, ex', sys2) =>
        (Return (entry, next_wake'), set_executor ex' self,
         add_log (ERROR, FailedToSubmitScheduledTask (name (task entry)) e) sys2)
    end
  else (Return (entry, next_wake'), self, sys1).
Proof.
  unfold tick_entry, TaskEntry_is_due, bind, time_time, the_fpu, ret.
  cbn [fpu advance_clock].
  destruct (is_due_at (fpu sys) entry (clock_now sys)) as [[|] remaining]; simpl; [|reflexivity].
  unfold try_except, bind, zoom, logger, time_time, ret.
  destruct (Executor_submit_call _ _ _ _ _) as [[[future|e] ex'] sys']; reflexivity.
Qed.

(** The state a turn leaves does not depend on the wake time carried along. *)
Lemma tick_entry_state (entry : TaskEntry) (next_wake : option Q)
    (self : Scheduler) (sys : Sys) :
  (state_of (tick_entry entry next_wake self sys),
   sys_of (tick_entry entry next_wake self sys)) = after_entry entry self sys.
Proof.
  unfold after_entry. rewrite !tick_entry_run. cbv zeta.
  destruct (fst (is_due_at (fpu sys) entry (clock_now sys))); [|reflexivity].
  destruct (Executor_submit_call _ _ _ _ _) as [[[future|e] ex'] sys']; reflexivity.
Qed.

(** A turn always returns, and carries the wake time on. *)
Lemma tick_entry_returns (entry : TaskEntry) (next_wake : option Q)
    (self : Scheduler) (sys : Sys) :
  exists entry',
    tick_entry entry next_wake self sys
    = (Return (entry',
               update_next_wake next_wake (snd (is_due_at (fpu sys) entry (clock_now sys)))),
       fst (after_entry entry self sys), snd (after_entry entry self sys)).
Proof.
  rewrite <- tick_entry_state with (next_wake := next_wake).
  rewrite tick_entry_run. cbv zeta.
  destruct (fst (is_due_at (fpu sys) entry (clock_now sys))); [|eexists; reflexivity].
  destruct (Executor_submit_call _ _ _ _ _) as [[[future|e] ex'] sys'];
    eexists; reflexivity.
Qed.

Lemma tick_entries_returns (entries : list (string * TaskEntry)) :
  forall (next_wake : option Q) (self : Scheduler) (sys : Sys),
  exists entries',
    tick_entries entries next_wake self sys
    = (Return (entries',
               fold_left update_next_wake (remaining_times entries self sys) next_wake),
       fst (after_entries entries self sys), snd (after_entries entries self sys)) /\
    map fst entries' = map fst entries.
Proof.
  induction entries as [|[key entry] rest IH]; intros next_wake self sys.
  - exists []. split; reflexivity.
  - destruct (tick_entry_returns entry next_wake self sys) as [entry' H1].
    simpl. unfold bind at 1. rewrite H1.
    destruct (IH (update_next_wake next_wake (snd (is_due_at (fpu sys) entry (clock_now sys))))
                 (fst (after_entry entry self sys)) (snd (after_entry entry self sys)))
      as (rest' & H2 & Hkeys).
    unfold bind. rewrite H2. eexists. split; [reflexivity|].
    simpl. now rewrite Hkeys.
Qed.

(** Draining the queue always ends on [queue.Empty]. *)
Lemma drain_instant_queue_ends (pending : list QueueItem) :
  forall (self : Scheduler) (sys : Sys),
  exists self' sys',
    drain_instant_queue pending self sys = (Raise (mkExc QueueEmpty ""), self', sys').
Proof.
  induction pending as [|[[t a] k] rest IH]; intros self sys.
  - do 2 eexists. reflexivity.
  - simpl. unfold bind at 1 2, modify at 1, logger at 1.
    unfold bind at 1, try_except at 1.
    destruct (bind _ _ _ _) as [[[u|e] self1] sys1].
    + apply IH.
    + unfold logger. apply IH.
Qed.

(** [tick] always returns: its sleep time is computed from the wake time
    the loop over the registry ends with. *)
Lemma Scheduler_tick_returns (self : Scheduler) (sys : Sys) :
  outcome (Scheduler_tick self sys)
  = Return (py_min
              (or_default
                 (fold_left update_next_wake
                    (remaining_times (scheduled_entries self) self sys) None) 1) 1).
Proof.
  unfold Scheduler_tick. unfold bind at 1, gets at 1.
  destruct (tick_entries_returns (scheduled_entries self) None self sys)
    as (entries' & H & _).
  unfold bind at 1. rewrite H.
  unfold bind at 1, modify at 1.
  unfold bind at 1, try_except_class, try_except.
  unfold bind at 1, gets at 1.
  match goal with
  | |- context [drain_instant_queue ?q ?st ?sy] =>
      destruct (drain_instant_queue_ends q st sy) as (self2 & sys2 & Hd)
  end.
  rewrite Hd. reflexivity.
Qed.

(** ** The sleep time of a tick *)

Lemma py_min_Qmin (a b : Q) : py_min a b = Qmin a b.
Proof.
  unfold py_min, Qmin, GenericMinMax.gmin.
  destruct (Qlt_bool b a) eqn:E.
  - apply Qlt_bool_iff in E. apply Qgt_alt in E. now rewrite E.
  - apply Qlt_bool_false_iff in E. rewrite Qle_alt in E.
    destruct (a ?= b); [reflexivity|reflexivity|now elim E].
Qed.

Lemma or_default_nonzero (m d : Q) : ~ m == 0 -> or_default (Some m) d = m.
Proof.
  intro H. unfold or_default. destruct (Qeq_bool m 0) eqn:E; [|reflexivity].
  apply Qeq_bool_iff in E. contradiction.
Qed.

(** The wake time carried by the loop is the least value met so far. *)
Lemma fold_update_next_wake_some (rs : list Q) :
  forall w : Q,
  exists m,
    fold_left update_next_wake rs (Some w) = Some m /\
    (m = w \/ In m rs) /\ m <= w /\ forall r, In r rs -> m <= r.
Proof.
  induction rs as [|r rs IH]; intro w; simpl.
  - exists w. repeat split; auto; try lra. intros r [].
  - destruct (Qlt_bool r w) eqn:E.
    + apply Qlt_bool_iff in E.
      destruct (IH r) as (m & Hm & Hin & Hle & Hall).
      exists m. repeat split; auto.
      * destruct Hin; auto.
      * lra.
      * intros x [<-|Hx]; auto.
    + apply Qlt_bool_false_iff in E.
      destruct (IH w) as (m & Hm & Hin & Hle & Hall).
      exists m. repeat split; auto.
      * destruct Hin; auto.
      * intros x [<-|Hx]; auto. lra.
Qed.

Lemma fold_update_next_wake_none (r : Q) (rs : list Q) :
  exists m,
    fold_left update_next_wake (r :: rs) None = Some m /\
    In m (r :: rs) /\ forall x, In x (r :: rs) -> m <= x.
Proof.
  simpl. destruct (fold_update_next_wake_some rs r) as (m & Hm & Hin & Hle & Hall).
  exists m. repeat split; auto.
  - destruct Hin; auto.
  - intros x [<-|Hx]; auto.
Qed.

Lemma is_due_at_remaining_positive (u : FloatUnit) (self : TaskEntry) (now : Q) :
  0 < interval (schedule self) -> 0 < snd (is_due_at u self now).
Proof.
  intro H. unfold is_due_at. destruct (last_run_at self) as [last|]; [|exact H].
  destruct (Qle_bool _ 0) eqn:E; [exact H|].
  now apply Qle_bool_false_iff in E.
Qed.

Lemma remaining_times_positive (entries : list (string * TaskEntry)) :
  (forall key e, In (key, e) entries -> 0 < interval (schedule e)) ->
  forall (self : Scheduler) (sys : Sys) (r : Q),
    In r (remaining_times entries self sys) -> 0 < r.
Proof.
  induction entries as [|[key entry] rest IH]; intros Hpos self sys r; simpl.
  - intros [].
  - intros [<-|Hin].
    + apply is_due_at_remaining_positive. apply (Hpos key). now left.
    + eapply IH; [|exact Hin]. intros key' e' H'. apply (Hpos key'). now right.
Qed.

Lemma remaining_times_length (entries : list (string * TaskEntry)) :
  forall (self : Scheduler) (sys : Sys),
    length (remaining_times entries self sys) = length entries.
Proof.
  induction entries as [|[key entry] rest IH]; intros self sys; simpl; [reflexivity|].
  now rewrite IH.
Qed.

(** C4. With every interval of the registry positive, as the constructor
    of the schedule makes it: [tick] returns 1.0 when the registry gives
    no [remaining] value, and otherwise [min(m, 1.0)] for [m] the least of
    the [remaining] values its entries report, one per entry. *)
Theorem Scheduler_tick_sleep_duration (self : Scheduler) (sys : Sys) :
  (forall key e, In (key, e) (scheduled_entries self) -> 0 < interval (schedule e)) ->
  let rs := remaining_times (scheduled_entries self) self sys in
  length rs = length (scheduled_entries self) /\
  match rs with
  | [] => outcome (Scheduler_tick self sys) = Return 1
  | _ :: _ =>
      exists m,
        In m rs /\ (forall r, In r rs -> m <= r) /\
        outcome (Scheduler_tick self sys) = Return (Qmin m 1)
  end.
Proof.
  intros Hpos rs. split; [apply remaining_times_length|].
  rewrite Scheduler_tick_returns. fold rs.
  pose proof (remaining_times_positive _ Hpos self sys) as Hrs. fold rs in Hrs.
  destruct rs as [|r rs']; [reflexivity|].
  destruct (fold_update_next_wake_none r rs') as (m & Hm & Hin & Hall).
  exists m. split; [exact Hin|]. split; [exact Hall|].
  rewrite Hm, or_default_nonzero, py_min_Qmin; [reflexivity|].
  specialize (Hrs m Hin). lra.
Qed.

(** C10. With every interval of the registry positive, the sleep time
    [tick] returns is positive and at most 1.0. *)
Theorem Scheduler_tick_sleep_positive (self : Scheduler) (sys : Sys) :
  (forall key e, In (key, e) (scheduled_entries self) -> 0 < interval (schedule e)) ->
  exists d, outcome (Scheduler_tick self sys) = Return d /\ 0 < d /\ d <= 1.
Proof.
  intro Hpos. rewrite Scheduler_tick_returns.
  pose proof (remaining_times_positive _ Hpos self sys) as Hrs.
  eexists. split; [reflexivity|]. rewrite py_min_Qmin.
  destruct (remaining_times (scheduled_entries self) self sys) as [|r rs'].
  - simpl. split; [|apply Q.le_min_r]. reflexivity.
  - destruct (fold_update_next_wake_none r rs') as (m & Hm & Hin & Hall).
    rewrite Hm, or_default_nonzero by (specialize (Hrs m Hin); lra).
    split; [|apply Q.le_min_r].
    apply Q.min_glb_lt; [apply (Hrs m Hin)|reflexivity].
Qed.

Lemma registry_near_intervals (key : string) (e : TaskEntry) :
  In (key, e) (scheduled_entries registry_near) -> 0 < interval (schedule e).
Proof.
  simpl. intros [H|[H|[]]]; inversion H; reflexivity.
Qed.

Lemma Scheduler_tick_sleep_duration_witness :
  (forall key e,
      In (key, e) (scheduled_entries registry_near) -> 0 < interval (schedule e)) /\
  exists m,
    In m [2 # 5; 3] /\ (forall r, In r [2 # 5; 3] -> m <= r) /\
    outcome (Scheduler_tick registry_near (frozen_sys 10 accepting_backend))
    = Return (Qmin m 1).
Proof.
  split; [exact registry_near_intervals|].
  exact (proj2 (Scheduler_tick_sleep_duration registry_near
                  (frozen_sys 10 accepting_backend) registry_near_intervals)).
Defined.

Lemma Scheduler_tick_sleep_positive_witness :
  (forall key e,
      In (key, e) (scheduled_entries registry_near) -> 0 < interval (schedule e)) /\
  exists d,
    outcome (Scheduler_tick registry_near (frozen_sys 10 accepting_backend)) = Return d /\
    0 < d /\ d <= 1.
Proof.
  split; [exact registry_near_intervals|].
  exact (Scheduler_tick_sleep_positive registry_near
           (frozen_sys 10 accepting_backend) registry_near_intervals).
Defined.

Example remaining_times_near :
  remaining_times (scheduled_entries registry_near) registry_near
    (frozen_sys 10 accepting_backend) = [2 # 5; 3].
Proof. reflexivity. Qed.

Example tick_sleeps_least_remaining :
  outcome (Scheduler_tick registry_near (frozen_sys 10 accepting_backend))
  = Return (2 # 5).
Proof. reflexivity. Qed.

Example remaining_times_far :
  remaining_times (scheduled_entries registry_far) registry_far
    (frozen_sys 10 accepting_backend) = [5; 8].
Proof. reflexivity. Qed.

Example tick_sleep_is_capped :
  outcome (Scheduler_tick registry_far (frozen_sys 10 accepting_backend)) = Return 1.
Proof. reflexivity. Qed.

Example tick_sleep_empty_registry :
  outcome (Scheduler_tick (example_scheduler [] []) (frozen_sys 10 accepting_backend))
  = Return 1.
Proof. reflexivity. Qed.

(** ** A submission that fails *)

(** The loop over a registry is the loop over its first part followed by
    the loop over the rest. *)
Lemma tick_entries_app (before after : list (string * TaskEntry)) :
  forall (next_wake : option Q) (self : Scheduler) (sys : Sys),
  tick_entries (before ++ after) next_wake self sys =
  match tick_entries before next_wake self sys with
  | (Return (before', next_wake1), self1, sys1) =>
      match tick_entries after next_wake1 self1 sys1 with
      | (Return (after', next_wake2), self2, sys2) =>
          (Return (before' ++ after', next_wake2), self2, sys2)
      | (Raise e, self2, sys2) => (Raise e, self2, sys2)
      end
  | (Raise e, self1, sys1) => (Raise e, self1, sys1)
  end.
Proof.
  induction before as [|[key entry] rest IH]; intros next_wake self sys.
  - simpl. destruct (tick_entries after next_wake self sys) as [[[[l w]|e] s1] y1];
      reflexivity.
  - simpl. unfold bind at 1 3.
    destruct (tick_entry entry next_wake self sys) as [[[[entry' w1]|e] s1] y1];
      [|reflexivity].
    unfold bind, ret. rewrite IH.
    destruct (tick_entries rest w1 s1 y1) as [[[[rest' w2]|e] s2] y2]; [|reflexivity].
    destruct (tick_entries after w2 s2 y2) as [[[[after' w3]|e] s3] y3]; reflexivity.
Qed.

(** A pool that refuses the task "a": the entry "a" stays never-run, the
    entry "b" after it is dispatched and stamped, the error is logged. *)
Example tick_goes_on_after_refusal :
  let self :=
    example_scheduler [example_entry "a" 6 None; example_entry "b" 8 (Some 1)] [] in
  let r := Scheduler_tick self (frozen_sys 10 (refusing_backend "a")) in
  outcome r = Return 1 /\
  map (fun ke => last_run_at (snd ke)) (scheduled_entries (state_of r))
  = [None; Some 10] /\
  accepted_jobs (executor (state_of r)) = [entry_job (example_entry "b" 8 (Some 1))] /\
  In (ERROR, FailedToSubmitScheduledTask "a"
               (mkExc PoolError "cannot schedule new futures"))
     (log (sys_of r)).
Proof.
  cbv zeta. repeat split; try reflexivity.
  vm_compute. tauto.
Qed.

(** ** Validation of the interval *)

(** C6. [IntervalSchedule(interval)] raises [ValueError] for a zero or
    negative interval and succeeds for a positive one; afterwards neither
    [is_due] nor [tick] raises anything, whatever the entries hold. *)
Theorem IntervalSchedule_init_spec (q : Q) :
  (q <= 0 -> exists msg, IntervalSchedule_init q = Raise (mkExc ValueError msg)) /\
  (0 < q -> IntervalSchedule_init q = Return (mkIntervalSchedule q)) /\
  (forall (self : TaskEntry) (st : unit) (sys : Sys),
      exists v, outcome (TaskEntry_is_due self st sys) = Return v) /\
  (forall (self : Scheduler) (sys : Sys),
      exists d, outcome (Scheduler_tick self sys) = Return d).
Proof.
  unfold IntervalSchedule_init. repeat split.
  - intro H. apply Qle_bool_iff in H. rewrite H. eexists. reflexivity.
  - intro H. apply Qle_bool_false_iff in H. now rewrite H.
  - intros self st sys. rewrite TaskEntry_is_due_run. eexists. reflexivity.
  - intros self sys. rewrite Scheduler_tick_returns. eexists. reflexivity.
Qed.

Lemma IntervalSchedule_init_spec_witness :
  (0 <= 0 /\ exists msg, IntervalSchedule_init 0 = Raise (mkExc ValueError msg)) /\
  (0 < 5 /\ IntervalSchedule_init 5 = Return (mkIntervalSchedule 5)).
Proof.
  split; split.
  - apply Qle_refl.
  - exact (proj1 (IntervalSchedule_init_spec 0) (Qle_refl 0)).
  - reflexivity.
  - exact (proj1 (proj2 (IntervalSchedule_init_spec 5)) eq_refl).
Defined.

Example IntervalSchedule_init_negative :
  IntervalSchedule_init (-3 # 2)
  = Raise (mkExc ValueError "Interval must be greater than 0").
Proof. reflexivity. Qed.

(** ** Order of dispatch within a tick *)

Lemma kept_nothing {A} (l : list A) : kept_in_order [] l.
Proof. induction l; constructor; assumption. Qed.

Lemma kept_all {A} (l : list A) : kept_in_order l l.
Proof. induction l; constructor; assumption. Qed.

Lemma kept_app {A} (s1 l1 s2 l2 : list A) :
  kept_in_order s1 l1 -> kept_in_order s2 l2 -> kept_in_order (s1 ++ s2) (l1 ++ l2).
Proof.
  intros H1 H2. induction H1; simpl; try constructor; assumption.
Qed.

Lemma announcements_app (l1 l2 : list LogRecord) :
  announcements (l1 ++ l2) = announcements l1 ++ announcements l2.
Proof. unfold announcements. now rewrite filter_app, map_app. Qed.

Lemma announcements_executor (extra : list LogRecord) :
  Forall executor_record extra -> announcements extra = [].
Proof.
  induction 1 as [|[lvl msg] l H _ IH]; [reflexivity|].
  unfold announcements in *. simpl.
  destruct msg; simpl in *; try contradiction; exact IH.
Qed.

(** What one call of [submit] made by the loop adds to the pool and to
    the announcements of the log. *)
Lemma submit_in_loop (fn : Callable) (a : Args) (k : Kwargs)
    (ex : BaseExecutor) (sys : Sys) :
  let r := Executor_submit_call fn a k ex sys in
  (exists extra, log (sys_of r) = log sys ++ extra /\ announcements extra = []) /\
  (exists J, accepted_jobs (state_of r) = accepted_jobs ex ++ J /\
             kept_in_order J [mkJob fn a k]).
Proof.
  cbv zeta.
  destruct (Executor_submit_call_effect fn a k ex sys)
    as (_ & _ & _ & (extra & Hlog & Hrec) & Hjobs).
  split.
  - exists extra. split; [exact Hlog|]. now apply announcements_executor.
  - destruct (outcome (Executor_submit_call fn a k ex sys)).
    + exists [mkJob fn a k]. split; [apply Hjobs|apply kept_all].
    + exists []. rewrite app_nil_r. split; [exact Hjobs|apply kept_nothing].
Qed.

Lemma after_entry_effect (entry : TaskEntry) (self : Scheduler) (sys : Sys) :
  let self' := fst (after_entry entry self sys) in
  let sys' := snd (after_entry entry self sys) in
  let due := if fst (is_due_at (fpu sys) entry (clock_now sys)) then [entry] else [] in
  instant_queue self' = instant_queue self /\
  (exists extra, log sys' = log sys ++ extra /\
                 announcements extra = map running_record due) /\
  (exists E, accepted_jobs (executor self') = accepted_jobs (executor self) ++ E /\
             kept_in_order E (map entry_job due)).
Proof.
  cbv zeta. unfold after_entry. rewrite tick_entry_run. cbv zeta.
  destruct (fst (is_due_at (fpu sys) entry (clock_now sys))).
  - match goal with
    | |- context [Executor_submit_call ?fn ?a ?k ?ex ?sy] =>
        destruct (submit_in_loop fn a k ex sy) as ((extra & Hlog & Hann) & (J & HJ & HK));
        destruct (Executor_submit_call fn a k ex sy) as [[[future|e] ex'] sysx]
    end; cbv [state_of sys_of fst snd] in *; simpl in *.
    + split; [reflexivity|]. split.
      * eexists. rewrite Hlog, <- app_assoc. split; [reflexivity|].
        rewrite announcements_app, Hann. reflexivity.
      * exists J. split; assumption.
    + split; [reflexivity|]. split.
      * eexists. rewrite Hlog, <- !app_assoc. split; [reflexivity|].
        rewrite !announcements_app, Hann. reflexivity.
      * exists J. split; assumption.
  - cbv [state_of sys_of fst snd]. simpl. split; [reflexivity|]. split.
    + exists []. rewrite app_nil_r. split; reflexivity.
    + exists []. rewrite app_nil_r. split; [reflexivity|constructor].
Qed.

Lemma after_entries_effect (entries : list (string * TaskEntry)) :
  forall (self : Scheduler) (sys : Sys),
  let self' := fst (after_entries entries self sys) in
  let sys' := snd (after_entries entries self sys) in
  let due := due_entries entries self sys in
  instant_queue self' = instant_queue self /\
  (exists extra, log sys' = log sys ++ extra /\
                 announcements extra = map running_record due) /\
  (exists E, accepted_jobs (executor self') = accepted_jobs (executor self) ++ E /\
             kept_in_order E (map entry_job due)).
Proof.
  induction entries as [|[key entry] rest IH]; intros self sys; cbv zeta.
  - simpl. split; [reflexivity|]. split.
    + exists []. rewrite app_nil_r. split; reflexivity.
    + exists []. rewrite app_nil_r. split; [reflexivity|constructor].
  - cbn [after_entries due_entries].
    destruct (after_entry_effect entry self sys)
      as (Hq1 & (x1 & Hl1 & Ha1) & (E1 & Hj1 & Hk1)).
    destruct (IH (fst (after_entry entry self sys)) (snd (after_entry entry self sys)))
      as (Hq2 & (x2 & Hl2 & Ha2) & (E2 & Hj2 & Hk2)).
    assert (Hdue :
      (if fst (is_due_at (fpu sys) entry (clock_now sys))
       then entry :: due_entries rest (fst (after_entry entry self sys))
                       (snd (after_entry entry self sys))
       else due_entries rest (fst (after_entry entry self sys))
              (snd (after_entry entry self sys)))
      = (if fst (is_due_at (fpu sys) entry (clock_now sys)) then [entry] else [])
        ++ due_entries rest (fst (after_entry entry self sys))
             (snd (after_entry entry self sys)))
      by (destruct (fst (is_due_at (fpu sys) entry (clock_now sys))); reflexivity).
    rewrite Hdue, !map_app.
    split; [congruence|]. split.
    + exists (x1 ++ x2). rewrite Hl2, Hl1, <- app_assoc. split; [reflexivity|].
      rewrite announcements_app, Ha1, Ha2. reflexivity.
    + exists (E1 ++ E2). rewrite Hj2, Hj1, <- app_assoc. split; [reflexivity|].
      now apply kept_app.
Qed.

Lemma drain_instant_queue_run (t : Task) (a : Args) (k : Kwargs)
    (rest : list QueueItem) (self : Scheduler) (sys : Sys) :
  drain_instant_queue ((t, a, k) :: rest) self sys =
  let self0 := set_instant_queue rest self in
  let sys0 := add_log (DEBUG, ProcessingInstantTask (name t)) sys in
  match Executor_submit_call (Task_run t) a k (executor self0) sys0 with
  | (Return _, ex', sys1) => drain_instant_queue rest (set_executor ex' self0) sys1
  | (Raise e, ex', sys1) =>
      drain_instant_queue rest (set_executor ex' self0)
        (add_log (ERROR, FailedToSubmitInstantTask (name t) e) sys1)
  end.
Proof.
  cbn [drain_instant_queue]. unfold bind at 1 2, modify at 1, logger at 1.
  unfold bind at 1, try_except at 1, bind at 1, zoom at 1.
  cbv zeta. change (executor (set_instant_queue rest self)) with (executor self).
  destruct (Executor_submit_call _ _ _ _ _) as [[[future|e] ex'] sys1]; reflexivity.
Qed.

Lemma drain_instant_queue_effect (pending : list QueueItem) :
  forall (self : Scheduler) (sys : Sys),
  let r := drain_instant_queue pending self sys in
  instant_queue (state_of r)
  = match pending with [] => instant_queue self | _ :: _ => [] end /\
  scheduled_entries (state_of r) = scheduled_entries self /\
  (exists extra, log (sys_of r) = log sys ++ extra /\
                 announcements extra = map processing_record pending) /\
  (exists I, accepted_jobs (executor (state_of r)) = accepted_jobs (executor self) ++ I /\
             kept_in_order I (map item_job pending)).
Proof.
  induction pending as [|[[t a] k] rest IH]; intros self sys; cbv zeta.
  - cbn [drain_instant_queue]. unfold raise. cbv [state_of sys_of fst snd].
    split; [reflexivity|]. split; [reflexivity|]. split.
    + exists []. rewrite app_nil_r. split; reflexivity.
    + exists []. rewrite app_nil_r. split; [reflexivity|constructor].
  - rewrite drain_instant_queue_run. cbv zeta.
    change (executor (set_instant_queue rest self)) with (executor self).
    match goal with
    | |- context [Executor_submit_call ?fn ?a ?k ?ex ?sy] =>
        destruct (submit_in_loop fn a k ex sy) as ((x1 & Hl1 & Ha1) & (J & HJ & HK));
        destruct (Executor_submit_call fn a k ex sy) as [[[future|e] ex'] sysx]
    end; cbv [state_of sys_of fst snd] in Hl1, HJ; simpl in Hl1.
    + destruct (IH (set_executor ex' (set_instant_queue rest self)) sysx)
        as (Hq & Hs & (x2 & Hl2 & Ha2) & (I2 & Hj2 & Hk2)).
      split; [|split; [exact Hs|split]].
      * rewrite Hq. destruct rest; reflexivity.
      * eexists. rewrite Hl2, Hl1, <- !app_assoc. split; [reflexivity|].
        rewrite !announcements_app, Ha1, Ha2. reflexivity.
      * exists (J ++ I2). cbn [executor set_executor] in Hj2.
        rewrite Hj2, HJ, <- app_assoc. split; [reflexivity|].
        change (map item_job ((t, a, k) :: rest))
          with ([mkJob (Task_run t) a k] ++ map item_job rest).
        now apply kept_app.
    + destruct (IH (set_executor ex' (set_instant_queue rest self))
                  (add_log (ERROR, FailedToSubmitInstantTask (name t) e) sysx))
        as (Hq & Hs & (x2 & Hl2 & Ha2) & (I2 & Hj2 & Hk2)).
      split; [|split; [exact Hs|split]].
      * rewrite Hq. destruct rest; reflexivity.
      * eexists. rewrite Hl2. cbn [log add_log]. rewrite Hl1, <- !app_assoc.
        split; [reflexivity|].
        rewrite !announcements_app, Ha1, Ha2. reflexivity.
      * exists (J ++ I2). cbn [executor set_executor] in Hj2.
        rewrite Hj2, HJ, <- app_assoc. split; [reflexivity|].
        change (map item_job ((t, a, k) :: rest))
          with ([mkJob (Task_run t) a k] ++ map item_job rest).
        now apply kept_app.
Qed.

(** A tick is the loop over the registry, then the draining of the queue. *)
Lemma Scheduler_tick_run (self : Scheduler) (sys : Sys) :
  exists entries',
    map fst entries' = map fst (scheduled_entries self) /\
    let self1 :=
      set_scheduled_entries entries'
        (fst (after_entries (scheduled_entries self) self sys)) in
    let sys1 := snd (after_entries (scheduled_entries self) self sys) in
    state_of (Scheduler_tick self sys)
    = state_of (drain_instant_queue (instant_queue self1) self1 sys1) /\
    sys_of (Scheduler_tick self sys)
    = sys_of (drain_instant_queue (instant_queue self1) self1 sys1).
Proof.
  destruct (tick_entries_returns (scheduled_entries self) None self sys)
    as (entries' & H & Hkeys).
  exists entries'. split; [exact Hkeys|]. cbv zeta.
  split; unfold Scheduler_tick;
    unfold bind at 1, gets at 1; unfold bind at 1; rewrite H;
    unfold bind at 1, modify at 1;
    unfold bind at 1, try_except_class, try_except;
    unfold bind at 1, gets at 1;
    match goal with
    | |- context [drain_instant_queue ?q ?st ?sy] =>
        destruct (drain_instant_queue_ends q st sy) as (self2 & sys2 & Hd)
    end;
    rewrite Hd; reflexivity.
Qed.

Lemma Scheduler_tick_empties_queue (self : Scheduler) (sys : Sys) :
  instant_queue (state_of (Scheduler_tick self sys)) = [].
Proof.
  destruct (Scheduler_tick_run self sys) as (entries' & _ & Hst & _).
  cbv zeta in Hst. rewrite Hst.
  destruct (after_entries_effect (scheduled_entries self) self sys) as (Hq1 & _).
  cbv zeta in Hq1.
  match goal with
  | |- context [drain_instant_queue ?q ?st ?sy] =>
      destruct (drain_instant_queue_effect q st sy) as (Hq2 & _)
  end.
  cbv zeta in Hq2. rewrite Hq2.
  cbn [instant_queue set_scheduled_entries].
  destruct (instant_queue (fst (after_entries (scheduled_entries self) self sys)));
    reflexivity.
Qed.

(** Two due entries and two queued items, every job accepted: the pool
    receives the entries' jobs first, then the items in queue order. *)
Example tick_order_example :
  let q1 := (example_task "q1" None, [VInt 1], []) in
  let q2 := (example_task "q2" None, [VInt 2], []) in
  let e1 := example_entry "e1" 5 None in
  let e2 := example_entry "e2" 3 (Some 2) in
  let r := Scheduler_tick (example_scheduler [e1; e2] [q1; q2])
             (frozen_sys 10 accepting_backend) in
  accepted_jobs (executor (state_of r))
  = [entry_job e1; entry_job e2; item_job q1; item_job q2] /\
  announcements (log (sys_of r))
  = [running_record e1; running_record e2; processing_record q1; processing_record q2] /\
  instant_queue (state_of r) = [].
Proof. cbv zeta. repeat split; reflexivity. Qed.

(** ** The instant queue is bypassed *)

Lemma Scheduler_shutdown_queue (self : Scheduler) (sys : Sys) :
  instant_queue (state_of (Scheduler_shutdown self sys)) = instant_queue self.
Proof.
  unfold Scheduler_shutdown, bind, logger, modify, zoom.
  destruct (BaseExecutor_shutdown _ _ _ _) as [[[u|e] ex'] sys']; reflexivity.
Qed.

Lemma ChewyTask_submit_task_run (t : Task) (a : Args) (k : Kwargs)
    (self : ChewyTask) (sys : Sys) :
  ChewyTask_submit_task t a k self sys =
  let s := match _scheduler self with
           | Some s => s
           | None => Scheduler_init (create_executor true (app_max_workers self))
           end in
  let sys0 := match _scheduler self with
              | Some _ => sys
              | None => add_log (DEBUG, SchedulerInitialized) sys
              end in
  let r := Scheduler_submit_instant_task t a k s sys0 in
  (outcome r, set__scheduler (Some (state_of r)) self, sys_of r).
Proof.
  unfold ChewyTask_submit_task, ChewyTask__ensure_scheduler_initialized.
  destruct self as [mw tmo tasks [s|] started];
    cbv [bind get modify logger ret zoom _scheduler set__scheduler outcome state_of
         sys_of fst snd app_max_workers task_timeout _tasks _started];
    destruct (Scheduler_submit_instant_task _ _ _ _ _) as [[o s'] sys']; reflexivity.
Qed.

Lemma ChewyTask_submit_task_queue (t : Task) (a : Args) (k : Kwargs)
    (self : ChewyTask) (sys : Sys) :
  app_queue (state_of (ChewyTask_submit_task t a k self sys)) = app_queue self.
Proof.
  rewrite ChewyTask_submit_task_run. cbv zeta.
  unfold app_queue. cbn [state_of fst snd _scheduler set__scheduler].
  rewrite Scheduler_submit_instant_task_run.
  destruct (_scheduler self) as [s|];
    destruct (BaseExecutor_submit _ _ _ _ _) as [[[future|e] ex'] sys']; reflexivity.
Qed.

(** C8. [submit_instant_task] returns what [Executor.submit] returns, at
    once: on success the job is in the pool and the future is the pool's;
    the instant queue is left as it was.  The same holds for every other
    public operation that submits or registers ([add_scheduled_task],
    [ChewyTask.submit_task], [Task.delay]) and for [shutdown]; [tick] only
    empties the queue.  So nothing ever puts an item into it. *)
Theorem instant_queue_bypassed :
  (forall (t : Task) (a : Args) (k : Kwargs) (self : Scheduler) (sys : Sys),
      let r := Scheduler_submit_instant_task t a k self sys in
      let rx := BaseExecutor_submit (Task_run t) a k (executor self) sys in
      instant_queue (state_of r) = instant_queue self /\
      outcome r = outcome rx /\
      executor (state_of r) = state_of rx /\
      match outcome r with
      | Return future =>
          accepted_jobs (executor (state_of r))
          = accepted_jobs (executor self) ++ [mkJob (Task_run t) a k] /\
          future = mkFuture (mkJob (Task_run t) a k)
                     (length (accepted_jobs (executor self)))
      | Raise _ =>
          accepted_jobs (executor (state_of r)) = accepted_jobs (executor self)
      end) /\
  (forall (e : TaskEntry) (self : Scheduler) (sys : Sys),
      instant_queue (state_of (Scheduler_add_scheduled_task e self sys))
      = instant_queue self) /\
  (forall (self : Scheduler) (sys : Sys),
      instant_queue (state_of (Scheduler_shutdown self sys)) = instant_queue self) /\
  (forall (self : Scheduler) (sys : Sys),
      instant_queue (state_of (Scheduler_tick self sys)) = []) /\
  (forall (t : Task) (a : Args) (k : Kwargs) (self : ChewyTask) (sys : Sys),
      app_queue (state_of (ChewyTask_submit_task t a k self sys)) = app_queue self) /\
  (forall (t : Task) (a : Args) (k : Kwargs) (h : Heap) (sys : Sys) (r : AppRef),
      app_queue (state_of (Task_delay t a k h sys) r) = app_queue (h r)).
Proof.
  split; [|split; [|split; [|split; [|split]]]].
  - intros t a k self sys. cbv zeta.
    pose proof (BaseExecutor_submit_effect (Task_run t) a k (executor self) sys) as H.
    cbv zeta in H. destruct H as (_ & _ & _ & _ & H).
    rewrite Scheduler_submit_instant_task_run.
    destruct (BaseExecutor_submit _ _ _ _ _) as [[[future|e] ex'] sys'];
      (split; [reflexivity|]); (split; [reflexivity|]); (split; [reflexivity|]);
      exact H.
  - intros e self sys. reflexivity.
  - intros self sys. apply Scheduler_shutdown_queue.
  - intros self sys. apply Scheduler_tick_empties_queue.
  - intros t a k self sys. apply ChewyTask_submit_task_queue.
  - intros t a k h sys r. unfold Task_delay. destruct (app t) as [r0|]; [|reflexivity].
    unfold zoom.
    pose proof (ChewyTask_submit_task_queue t a k (h r0) sys) as H.
    destruct (ChewyTask_submit_task t a k (h r0) sys) as [[o app'] sys'].
    cbv [state_of fst snd] in *. unfold heap_set.
    destruct (Nat.eqb r r0) eqn:E; [|reflexivity].
    apply Nat.eqb_eq in E. subst r0. exact H.
Qed.

(** ** A task submitting itself *)

(** C9. [delay] on a task with no application raises [RuntimeError]
    naming the task, and changes nothing.  On a task bound to an
    application it is that application's [submit_task]: same result, the
    application updated in place, every other application untouched. *)
Theorem Task_delay_spec (self : Task) (a : Args) (k : Kwargs) (h : Heap) (sys : Sys) :
  (app self = None ->
     Task_delay self a k h sys
     = (Raise (mkExc RuntimeError (unbound_message (name self))), h, sys)) /\
  (forall r : AppRef, app self = Some r ->
     let rapp := ChewyTask_submit_task self a k (h r) sys in
     outcome (Task_delay self a k h sys) = outcome rapp /\
     state_of (Task_delay self a k h sys) r = state_of rapp /\
     (forall r' : AppRef, r' <> r -> state_of (Task_delay self a k h sys) r' = h r') /\
     sys_of (Task_delay self a k h sys) = sys_of rapp).
Proof.
  unfold Task_delay. split.
  - intros ->. reflexivity.
  - intros r ->. cbv zeta. unfold zoom.
    destruct (ChewyTask_submit_task self a k (h r) sys) as [[o app'] sys'].
    cbv [outcome state_of sys_of fst snd]. unfold heap_set.
    repeat split.
    + now rewrite Nat.eqb_refl.
    + intros r' Hne. apply Nat.eqb_neq in Hne. now rewrite Hne.
Qed.

Lemma Task_delay_spec_witness :
  (app (example_task "orphan" None) = None /\
   outcome (Task_delay (example_task "orphan" None) [VInt 1] [] fresh_heap
              (frozen_sys 0 accepting_backend))
   = Raise (mkExc RuntimeError (unbound_message "orphan"))) /\
  (app (example_task "bound" (Some 3%nat)) = Some 3%nat /\
   outcome (Task_delay (example_task "bound" (Some 3%nat)) [VInt 1] [] fresh_heap
              (frozen_sys 0 accepting_backend))
   = outcome (ChewyTask_submit_task (example_task "bound" (Some 3%nat)) [VInt 1] []
                (fresh_heap 3%nat) (frozen_sys 0 accepting_backend))).
Proof.
  split.
  - split; [reflexivity|].
    exact (f_equal outcome
             (proj1 (Task_delay_spec (example_task "orphan" None) [VInt 1] []
                       fresh_heap (frozen_sys 0 accepting_backend)) eq_refl)).
  - split; [reflexivity|].
    exact (proj1 (proj2 (Task_delay_spec (example_task "bound" (Some 3%nat)) [VInt 1] []
                           fresh_heap (frozen_sys 0 accepting_backend))
                    3%nat eq_refl)).
Defined.

(** A bound task: the application creates its scheduler and executor, the
    pool accepts the job and [delay] returns the future. *)
Example delay_bound_task_returns_future :
  let t := example_task "bound" (Some 3%nat) in
  let r := Task_delay t [VInt 1] [] fresh_heap (frozen_sys 0 accepting_backend) in
  outcome r = Return (mkFuture (mkJob (Task_run t) [VInt 1] []) 0) /\
  option_map (fun s => accepted_jobs (executor s)) (_scheduler (state_of r 3%nat))
  = Some [mkJob (Task_run t) [VInt 1] []] /\
  _scheduler (state_of r 0%nat) = None.
Proof. cbv zeta. repeat split; reflexivity. Qed.

(** A schedule record holding 0 cannot come from [IntervalSchedule_init];
    for such an entry [next_wake or 1.0] takes the default. *)
Example tick_zero_remaining_takes_default :
  IntervalSchedule_init 0 = Raise (mkExc ValueError "Interval must be greater than 0") /\
  outcome (Scheduler_tick (example_scheduler [example_entry "z" 0 None] [])
             (frozen_sys 10 accepting_backend)) = Return 1.
Proof. split; reflexivity. Qed.

(** * Further properties of the executor *)

(** X1. [start] creates the pool at most once: on an executor that has a
    pool it changes nothing, and after a [start] that returned, the
    executor has a pool and another [start] changes nothing. *)
Theorem BaseExecutor_start_once (self : BaseExecutor) (sys : Sys) :
  let r := BaseExecutor_start self sys in
  match _executor self with
  | Some _ => r = (Return tt, self, sys)
  | None =>
      match outcome r with
      | Return _ =>
          _executor (state_of r)
          = Some (mkPool (executor_class self) (max_workers self) []) /\
          BaseExecutor_start (state_of r) (sys_of r) = (Return tt, state_of r, sys_of r)
      | Raise e =>
          pool_init_error (backend sys) (executor_class self) (max_workers self) = Some e /\
          state_of r = self /\ sys_of r = sys
      end
  end.
Proof.
  destruct self as [cls mw [pool|]]; cbv zeta; [reflexivity|].
  unfold_method. simpl.
  destruct (pool_init_error (backend sys) cls mw) eqn:E; simpl; auto.
Qed.

(** X2. The future [submit] returns names the job it was given, and its
    sequence number is the place of that job among the accepted jobs. *)
Theorem BaseExecutor_submit_future_locates_job (fn : Callable) (a : Args) (k : Kwargs)
    (self : BaseExecutor) (sys : Sys) (future : Future) :
  outcome (BaseExecutor_submit fn a k self sys) = Return future ->
  future_job future = mkJob fn a k /\
  nth_error (accepted_jobs (state_of (BaseExecutor_submit fn a k self sys)))
    (future_seq future)
  = Some (future_job future).
Proof.
  intro H.
  pose proof (BaseExecutor_submit_effect fn a k self sys) as He. cbv zeta in He.
  destruct He as (_ & _ & _ & _ & He). rewrite H in He.
  destruct He as [Hjobs ->]. split; [reflexivity|].
  rewrite Hjobs. simpl.
  rewrite nth_error_app2 by apply Nat.le_refl.
  now rewrite Nat.sub_diag.
Qed.

Lemma BaseExecutor_submit_future_locates_job_witness :
  let fn := Task_run (example_task "w" None) in
  let r := BaseExecutor_submit fn [VInt 2] [] (create_executor true None)
             (frozen_sys 0 accepting_backend) in
  outcome r = Return (mkFuture (mkJob fn [VInt 2] []) 0) /\
  nth_error (accepted_jobs (state_of r)) 0 = Some (mkJob fn [VInt 2] []).
Proof.
  cbv zeta. split; [reflexivity|].
  exact (proj2 (BaseExecutor_submit_future_locates_job
                  (Task_run (example_task "w" None)) [VInt 2] []
                  (create_executor true None) (frozen_sys 0 accepting_backend)
                  _ eq_refl)).
Defined.

(** X3. [submit] never loses or reorders accepted work and never changes
    the configuration of the executor: the jobs accepted before are a
    prefix of the jobs accepted after, by at most the new job. *)
Theorem BaseExecutor_submit_keeps_accepted (fn : Callable) (a : Args) (k : Kwargs)
    (self : BaseExecutor) (sys : Sys) :
  let r := BaseExecutor_submit fn a k self sys in
  executor_class (state_of r) = executor_class self /\
  max_workers (state_of r) = max_workers self /\
  (accepted_jobs (state_of r) = accepted_jobs self \/
   accepted_jobs (state_of r) = accepted_jobs self ++ [mkJob fn a k]) /\
  (forall pool, _executor self = Some pool ->
     exists pool', _executor (state_of r) = Some pool' /\
                   pool_kind pool' = pool_kind pool /\
                   pool_max_workers pool' = pool_max_workers pool).
Proof.
  cbv zeta. destruct (_executor self) as [pool|] eqn:E.
  - rewrite (BaseExecutor_submit_started _ _ _ _ _ _ E).
    unfold accepted_jobs. rewrite E.
    destruct (pool_submit_error _ _ _); cbv [state_of fst snd]; simpl.
    + rewrite E. repeat split; auto.
      intros p [= <-]. exists pool. auto.
    + repeat split; auto. intros p [= <-]. eexists. split; [reflexivity|]. auto.
  - rewrite (BaseExecutor_submit_unstarted _ _ _ _ _ E).
    unfold accepted_jobs. rewrite E.
    destruct (pool_init_error _ _ _); cbv [state_of fst snd]; simpl.
    + rewrite E. repeat split; auto. intros p [=].
    + destruct (pool_submit_error _ _ _); simpl; repeat split; auto; intros p [=].
Qed.

Lemma BaseExecutor_submit_keeps_accepted_witness :
  let fn := Task_run (example_task "w" None) in
  let ex := state_of (BaseExecutor_submit fn [] [] (create_executor false (Some 2%Z))
                        (frozen_sys 0 accepting_backend)) in
  let r := BaseExecutor_submit fn [VInt 1] [] ex (frozen_sys 0 accepting_backend) in
  _executor ex = Some (mkPool ProcessPool (Some 2%Z) [mkJob fn [] []]) /\
  exists pool', _executor (state_of r) = Some pool' /\
                pool_kind pool' = ProcessPool /\
                pool_max_workers pool' = Some 2%Z.
Proof.
  cbv zeta. split; [reflexivity|].
  exact (proj2 (proj2 (proj2
           (BaseExecutor_submit_keeps_accepted (Task_run (example_task "w" None))
              [VInt 1] []
              (state_of (BaseExecutor_submit (Task_run (example_task "w" None)) [] []
                           (create_executor false (Some 2%Z))
                           (frozen_sys 0 accepting_backend)))
              (frozen_sys 0 accepting_backend)))) _ eq_refl).
Defined.

(** X4. [shutdown] is idempotent: a second call right after the first
    returns without touching the executor, the pool or the log. *)
Theorem BaseExecutor_shutdown_idempotent (wait wait' : bool) (timeout timeout' : option Q)
    (self : BaseExecutor) (sys : Sys) :
  let r1 := BaseExecutor_shutdown wait timeout self sys in
  BaseExecutor_shutdown wait' timeout' (state_of r1) (sys_of r1)
  = (Return tt, state_of r1, sys_of r1).
Proof.
  cbv zeta.
  destruct (BaseExecutor_shutdown_run wait timeout self sys) as (_ & Hst & _).
  rewrite Hst. reflexivity.
Qed.

(** X5. [shutdown] never raises: when the pool's own [shutdown] raises,
    the error is logged after the announcement, the pool reference is
    cleared all the same, and [shutdown] returns. *)
Theorem BaseExecutor_shutdown_swallows_pool_error (wait : bool) (timeout : option Q)
    (self : BaseExecutor) (sys : Sys) (pool : Pool) (e : Exc) :
  _executor self = Some pool ->
  pool_shutdown_error (backend sys) pool wait = Some e ->
  BaseExecutor_shutdown wait timeout self sys
  = (Return tt, set__executor None self,
     add_log (ERROR, ErrorDuringExecutorShutdown e)
       (add_log (INFO, ShuttingDownExecutor (executor_class self)) sys)).
Proof.
  destruct self as [cls mw p]; simpl. intros -> H.
  unfold_method. simpl. rewrite H. reflexivity.
Qed.

Lemma BaseExecutor_shutdown_swallows_pool_error_witness :
  let sys := frozen_sys 0 shutdown_failing_backend in
  let ex := state_of (BaseExecutor_submit (Task_run (example_task "w" None)) [] []
                        (create_executor true None) sys) in
  outcome (BaseExecutor_shutdown true None ex sys) = Return tt /\
  _executor (state_of (BaseExecutor_shutdown true None ex sys)) = None.
Proof.
  cbv zeta.
  pose proof (BaseExecutor_shutdown_swallows_pool_error true None
                (state_of (BaseExecutor_submit (Task_run (example_task "w" None)) [] []
                             (create_executor true None)
                             (frozen_sys 0 shutdown_failing_backend)))
                (frozen_sys 0 shutdown_failing_backend) _ _ eq_refl eq_refl) as H.
  rewrite H. split; reflexivity.
Defined.

(** X6. A lazy start that fails is not remembered and not logged:
    [submit] on an executor without pool raises what the constructor of
    the pool raises, and leaves the executor and the log as they were. *)
Theorem BaseExecutor_submit_failed_start (fn : Callable) (a : Args) (k : Kwargs)
    (self : BaseExecutor) (sys : Sys) (e : Exc) :
  _executor self = None ->
  pool_init_error (backend sys) (executor_class self) (max_workers self) = Some e ->
  BaseExecutor_submit fn a k self sys = (Raise e, self, sys).
Proof.
  intros H0 He. rewrite (BaseExecutor_submit_unstarted _ _ _ _ _ H0), He. reflexivity.
Qed.

Lemma BaseExecutor_submit_failed_start_witness :
  BaseExecutor_submit (Task_run (example_task "w" None)) [] []
    (create_executor true (Some 0%Z)) (frozen_sys 0 init_failing_backend)
  = (Raise (mkExc ValueError "max_workers must be greater than 0"),
     create_executor true (Some 0%Z), frozen_sys 0 init_failing_backend).
Proof.
  exact (BaseExecutor_submit_failed_start (Task_run (example_task "w" None)) [] []
           (create_executor true (Some 0%Z)) (frozen_sys 0 init_failing_backend)
           _ eq_refl eq_refl).
Defined.

(** X7. When the pool's [submit] raises, [Executor.submit] logs the
    error and raises it again; the pool, started if need be, is kept
    with the jobs it had. *)
Theorem BaseExecutor_submit_reraises (fn : Callable) (a : Args) (k : Kwargs)
    (self : BaseExecutor) (sys : Sys) (e : Exc) :
  outcome (BaseExecutor_submit fn a k self sys) = Raise e ->
  _executor (state_of (BaseExecutor_submit fn a k self sys)) <> None ->
  accepted_jobs (state_of (BaseExecutor_submit fn a k self sys)) = accepted_jobs self /\
  exists before,
    log (sys_of (BaseExecutor_submit fn a k self sys))
    = before ++ [(ERROR, FailedToSubmitTask e)].
Proof.
  destruct (_executor self) as [pool|] eqn:E.
  - rewrite (BaseExecutor_submit_started _ _ _ _ _ _ E).
    unfold accepted_jobs.
    destruct (pool_submit_error _ _ _); cbv [outcome state_of sys_of fst snd]; simpl.
    + intros [= ->] _. split; [reflexivity|]. eexists. reflexivity.
    + intros [=].
  - rewrite (BaseExecutor_submit_unstarted _ _ _ _ _ E).
    unfold accepted_jobs.
    destruct (pool_init_error _ _ _); cbv [outcome state_of sys_of fst snd]; simpl.
    + intros _ H. now elim H.
    + destruct (pool_submit_error _ _ _); simpl.
      * intros [= ->] _. rewrite E. split; [reflexivity|]. eexists. reflexivity.
      * intros [=].
Qed.

Lemma BaseExecutor_submit_reraises_witness :
  let fn := Task_run (example_task "a" None) in
  let r := BaseExecutor_submit fn [] [] (create_executor true None)
             (frozen_sys 0 (refusing_backend "a")) in
  outcome r = Raise (mkExc PoolError "cannot schedule new futures") /\
  accepted_jobs (state_of r) = [] /\
  exists before,
    log (sys_of r)
    = before ++ [(ERROR, FailedToSubmitTask (mkExc PoolError "cannot schedule new futures"))].
Proof.
  cbv zeta. split; [reflexivity|].
  refine (BaseExecutor_submit_reraises (Task_run (example_task "a" None)) [] []
            (create_executor true None) (frozen_sys 0 (refusing_backend "a"))
            _ eq_refl _).
  vm_compute. discriminate.
Defined.

(** * Further properties of the registry *)

Lemma dict_get_set {V} (key k : string) (v : V) (d : list (string * V)) :
  dict_get k (dict_set key v d)
  = if String.eqb k key then Some v else dict_get k d.
Proof.
  induction d as [|[k0 v0] rest IH]; simpl.
  - rewrite String.eqb_sym. reflexivity.
  - destruct (String.eqb k0 key) eqn:E0; simpl.
    + apply String.eqb_eq in E0. subst k0.
      rewrite (String.eqb_sym key k). destruct (String.eqb k key); reflexivity.
    + destruct (String.eqb k0 k) eqn:E1.
      * apply String.eqb_eq in E1. subst k0. now rewrite E0.
      * exact IH.
Qed.

Lemma dict_set_keys {V} (key : string) (v : V) (d : list (string * V)) :
  map fst (dict_set key v d)
  = if in_dec string_dec key (map fst d) then map fst d else map fst d ++ [key].
Proof.
  induction d as [|[k0 v0] rest IH]; simpl; [reflexivity|].
  destruct (String.eqb k0 key) eqn:E0; simpl.
  - apply String.eqb_eq in E0. subst k0.
    destruct (string_dec key key) as [Heq|N]; [reflexivity|now elim N].
  - apply String.eqb_neq in E0. rewrite IH.
    destruct (string_dec k0 key) as [Heq|Hne]; [now elim E0|].
    destruct (in_dec string_dec key (map fst rest)); reflexivity.
Qed.

(** X8. Registration and lookup: after [add_scheduled_task(entry)] the
    registry maps the entry's id to that entry and every other id to what
    it mapped to before; the executor, the instant queue and the running
    flag are not touched, and the call returns. *)
Theorem Scheduler_add_scheduled_task_lookup (entry : TaskEntry) (key : string)
    (self : Scheduler) (sys : Sys) :
  let r := Scheduler_add_scheduled_task entry self sys in
  outcome r = Return tt /\
  dict_get key (scheduled_entries (state_of r))
  = (if String.eqb key (id entry) then Some entry
     else dict_get key (scheduled_entries self)) /\
  executor (state_of r) = executor self /\
  instant_queue (state_of r) = instant_queue self /\
  running (state_of r) = running self.
Proof.
  cbv zeta. unfold Scheduler_add_scheduled_task, bind, modify, logger.
  unfold outcome, state_of. cbn [fst snd scheduled_entries set_scheduled_entries].
  split; [reflexivity|]. split; [apply dict_get_set|]. repeat split.
Qed.

(** X9. Registration keeps the ids of the registry distinct and in
    place: a new id goes last, an id already present keeps its position
    and the registry its size. *)
Theorem Scheduler_add_scheduled_task_keys (entry : TaskEntry)
    (self : Scheduler) (sys : Sys) :
  NoDup (map fst (scheduled_entries self)) ->
  let after := scheduled_entries (state_of (Scheduler_add_scheduled_task entry self sys)) in
  NoDup (map fst after) /\
  map fst after
  = (if in_dec string_dec (id entry) (map fst (scheduled_entries self))
     then map fst (scheduled_entries self)
     else map fst (scheduled_entries self) ++ [id entry]).
Proof.
  intros Hnd after. subst after.
  unfold Scheduler_add_scheduled_task, bind, modify, logger.
  unfold state_of. cbn [fst snd scheduled_entries set_scheduled_entries].
  rewrite dict_set_keys.
  split; [|reflexivity].
  destruct (in_dec string_dec (id entry) (map fst (scheduled_entries self)))
    as [Hin|Hout]; [exact Hnd|].
  apply NoDup_app; [exact Hnd|repeat constructor; intros []|].
  intros x Hx [Heq|[]]. subst x. contradiction.
Qed.

Lemma Scheduler_add_scheduled_task_keys_witness :
  let self := example_scheduler [example_entry "a" 1 None; example_entry "b" 2 None] [] in
  NoDup (map fst (scheduled_entries self)) /\
  map fst (scheduled_entries
             (state_of (Scheduler_add_scheduled_task (example_entry "a" 9 None) self
                          (frozen_sys 0 accepting_backend))))
  = ["a"; "b"]%string /\
  map fst (scheduled_entries
             (state_of (Scheduler_add_scheduled_task (example_entry "c" 9 None) self
                          (frozen_sys 0 accepting_backend))))
  = ["a"; "b"; "c"]%string.
Proof.
  cbv zeta.
  assert (Hnd : NoDup (map fst (scheduled_entries
            (example_scheduler [example_entry "a" 1 None; example_entry "b" 2 None] [])))).
  { simpl. repeat constructor; simpl; intuition discriminate. }
  split; [exact Hnd|]. split.
  - exact (proj2 (Scheduler_add_scheduled_task_keys (example_entry "a" 9 None) _
                    (frozen_sys 0 accepting_backend) Hnd)).
  - exact (proj2 (Scheduler_add_scheduled_task_keys (example_entry "c" 9 None) _
                    (frozen_sys 0 accepting_backend) Hnd)).
Defined.

Lemma dict_set_twice {V} (key : string) (v v' : V) (d : list (string * V)) :
  dict_set key v (dict_set key v' d) = dict_set key v d.
Proof.
  induction d as [|[k0 v0] rest IH]; simpl.
  - now rewrite String.eqb_refl.
  - destruct (String.eqb k0 key) eqn:E0; simpl.
    + now rewrite String.eqb_refl.
    + now rewrite E0, IH.
Qed.

(** X10. Registering two entries under one id keeps the second only: the
    registry is the one obtained by registering the second alone. *)
Theorem Scheduler_add_scheduled_task_replaces (first second : TaskEntry)
    (self : Scheduler) (sys : Sys) :
  id first = id second ->
  let r1 := Scheduler_add_scheduled_task first self sys in
  scheduled_entries
    (state_of (Scheduler_add_scheduled_task second (state_of r1) (sys_of r1)))
  = scheduled_entries (state_of (Scheduler_add_scheduled_task second self sys)).
Proof.
  intros Hid r1. subst r1.
  unfold Scheduler_add_scheduled_task, bind, modify, logger.
  unfold state_of, sys_of. cbn [fst snd scheduled_entries set_scheduled_entries].
  rewrite Hid. apply dict_set_twice.
Qed.

Lemma Scheduler_add_scheduled_task_replaces_witness :
  let self := example_scheduler [example_entry "a" 1 None; example_entry "b" 2 None] [] in
  let sys := frozen_sys 0 accepting_backend in
  let r1 := Scheduler_add_scheduled_task (example_entry "b" 5 None) self sys in
  scheduled_entries
    (state_of (Scheduler_add_scheduled_task (example_entry "b" 7 (Some 3))
                 (state_of r1) (sys_of r1)))
  = scheduled_entries
      (state_of (Scheduler_add_scheduled_task (example_entry "b" 7 (Some 3)) self sys)).
Proof.
  exact (Scheduler_add_scheduled_task_replaces (example_entry "b" 5 None)
           (example_entry "b" 7 (Some 3))
           (example_scheduler [example_entry "a" 1 None; example_entry "b" 2 None] [])
           (frozen_sys 0 accepting_backend) eq_refl).
Defined.


(** * Further properties of the tick *)

Lemma tick_entry_stamps (entry : TaskEntry) (next_wake : option Q)
    (self : Scheduler) (sys : Sys) :
  exists entry' next_wake',
    tick_entry entry next_wake self sys
    = (Return (entry', next_wake'),
       fst (after_entry entry self sys), snd (after_entry entry self sys)) /\
    (entry' = entry \/
     (fst (is_due_at (fpu sys) entry (clock_now sys)) = true /\
      entry' = set_last_run_at
                 (Some (time_src sys (S (time_idx sys)))) entry)) /\
    running (fst (after_entry entry self sys)) = running self /\
    time_src (snd (after_entry entry self sys)) = time_src sys /\
    (time_idx sys <= time_idx (snd (after_entry entry self sys)))%nat /\
    backend (snd (after_entry entry self sys)) = backend sys.
Proof.
  rewrite <- tick_entry_state with (next_wake := next_wake).
  rewrite tick_entry_run. cbv zeta.
  destruct (fst (is_due_at (fpu sys) entry (clock_now sys))).
  - match goal with
    | |- context [Executor_submit_call ?fn ?a ?k ?ex ?sy] =>
        destruct (Executor_submit_call_effect fn a k ex sy) as (Hsrc & Hidx & Hb & _);
        destruct (Executor_submit_call fn a k ex sy) as [[[future|e] ex'] sysx]
    end; cbv [state_of sys_of fst snd] in *; simpl in Hsrc, Hidx, Hb;
      do 2 eexists; (split; [reflexivity|]).
    + split; [right; split; [reflexivity|]|].
      * unfold clock_now. now rewrite Hsrc, Hidx.
      * simpl. rewrite Hsrc, Hidx, Hb. repeat split. auto.
    + split; [now left|]. simpl. rewrite Hsrc, Hidx, Hb. repeat split. auto.
  - do 2 eexists. split; [reflexivity|]. split; [now left|].
    cbv [state_of sys_of fst snd]. simpl. repeat split. auto.
Qed.

Lemma after_entries_frame (entries : list (string * TaskEntry)) :
  forall (self : Scheduler) (sys : Sys),
    running (fst (after_entries entries self sys)) = running self /\
    time_src (snd (after_entries entries self sys)) = time_src sys /\
    backend (snd (after_entries entries self sys)) = backend sys.
Proof.
  induction entries as [|[key entry] rest IH]; intros self sys.
  - repeat split.
  - cbn [after_entries].
    destruct (tick_entry_stamps entry None self sys)
      as (e' & w' & _ & _ & Hr & Hsrc & _ & Hb).
    destruct (IH (fst (after_entry entry self sys)) (snd (after_entry entry self sys)))
      as (Hr2 & Hsrc2 & Hb2).
    repeat split; congruence.
Qed.

Lemma drain_instant_queue_running (pending : list QueueItem) :
  forall (self : Scheduler) (sys : Sys),
    running (state_of (drain_instant_queue pending self sys)) = running self.
Proof.
  induction pending as [|[[t a] k] rest IH]; intros self sys; [reflexivity|].
  rewrite drain_instant_queue_run. cbv zeta.
  destruct (Executor_submit_call _ _ _ _ _) as [[[future|e] ex'] sysx];
    rewrite IH; reflexivity.
Qed.

(** The registry a tick leaves is the one its loop over the entries returns. *)
Lemma Scheduler_tick_registry (self : Scheduler) (sys : Sys) :
  exists entries' next_wake',
    tick_entries (scheduled_entries self) None self sys
    = (Return (entries', next_wake'),
       fst (after_entries (scheduled_entries self) self sys),
       snd (after_entries (scheduled_entries self) self sys)) /\
    scheduled_entries (state_of (Scheduler_tick self sys)) = entries' /\
    running (state_of (Scheduler_tick self sys)) = running self.
Proof.
  destruct (tick_entries_returns (scheduled_entries self) None self sys)
    as (entries' & H & _).
  exists entries'. eexists. split; [exact H|].
  destruct (after_entries_frame (scheduled_entries self) self sys) as (Hr & _).
  split; unfold Scheduler_tick;
    unfold bind at 1, gets at 1; unfold bind at 1; rewrite H;
    unfold bind at 1, modify at 1;
    unfold bind at 1, try_except_class, try_except;
    unfold bind at 1, gets at 1;
    match goal with
    | |- context [drain_instant_queue ?q ?st ?sy] =>
        pose proof (drain_instant_queue_running q st sy) as Hrun;
        destruct (drain_instant_queue_effect q st sy) as (_ & Hsched & _);
        destruct (drain_instant_queue_ends q st sy) as (self2 & sys2 & Hd)
    end;
    cbv zeta in Hsched; rewrite Hd in *;
    cbv [state_of fst snd] in *; simpl in *; congruence.
Qed.

Lemma tick_entries_stamps (entries : list (string * TaskEntry)) :
  forall (next_wake : option Q) (self : Scheduler) (sys : Sys)
         (entries' : list (string * TaskEntry)) (next_wake' : option Q)
         (self' : Scheduler) (sys' : Sys),
    tick_entries entries next_wake self sys = (Return (entries', next_wake'), self', sys') ->
    Forall2 stamped_or_same entries entries'.
Proof.
  induction entries as [|[key entry] rest IH];
    intros next_wake self sys entries' next_wake' self' sys' H.
  - simpl in H. inversion H. constructor.
  - destruct (tick_entry_stamps entry next_wake self sys)
      as (e' & w' & He & Hstamp & _).
    destruct (tick_entries_returns rest w' (fst (after_entry entry self sys))
                (snd (after_entry entry self sys))) as (rest' & Hrest & _).
    pose proof (IH _ _ _ _ _ _ _ Hrest) as Hall.
    cbn [tick_entries] in H. unfold bind at 1 in H. rewrite He in H.
    unfold bind in H. rewrite Hrest in H. unfold ret in H. inversion H. subst.
    constructor; [|exact Hall].
    split; [reflexivity|]. simpl.
    destruct Hstamp as [->|[_ ->]]; [now left|right; eexists; reflexivity].
Qed.

(** X12. A tick changes nothing in the registry but [last_run_at]: the
    ids stay in place, and each entry is left as it was or has its
    [last_run_at] stamped; the running flag is left as it was. *)
Theorem Scheduler_tick_only_stamps (self : Scheduler) (sys : Sys) :
  Forall2 stamped_or_same
    (scheduled_entries self) (scheduled_entries (state_of (Scheduler_tick self sys))) /\
  running (state_of (Scheduler_tick self sys)) = running self.
Proof.
  destruct (Scheduler_tick_registry self sys) as (entries' & w' & H & Hs & Hr).
  rewrite Hs. split; [|exact Hr].
  eapply tick_entries_stamps. exact H.
Qed.

Lemma tick_entries_not_earlier (entries : list (string * TaskEntry)) :
  forall (next_wake : option Q) (self : Scheduler) (sys : Sys)
         (entries' : list (string * TaskEntry)) (next_wake' : option Q)
         (self' : Scheduler) (sys' : Sys),
    clock_monotone sys ->
    (forall key e, In (key, e) entries -> 0 <= interval (schedule e)) ->
    tick_entries entries next_wake self sys = (Return (entries', next_wake'), self', sys') ->
    Forall2 not_earlier entries entries'.
Proof.
  induction entries as [|[key entry] rest IH];
    intros next_wake self sys entries' next_wake' self' sys' Hmono Hpos H.
  - simpl in H. inversion H. constructor.
  - destruct (tick_entry_stamps entry next_wake self sys)
      as (e' & w' & He & Hstamp & _ & Hsrc & _).
    destruct (tick_entries_returns rest w' (fst (after_entry entry self sys))
                (snd (after_entry entry self sys))) as (rest' & Hrest & _).
    assert (Hmono' : clock_monotone (snd (after_entry entry self sys))).
    { unfold clock_monotone. rewrite Hsrc. exact Hmono. }
    assert (Hpos' : forall key e, In (key, e) rest -> 0 <= interval (schedule e)).
    { intros k0 e0 Hin. apply (Hpos k0). now right. }
    pose proof (IH _ _ _ _ _ _ _ Hmono' Hpos' Hrest) as Hall.
    cbn [tick_entries] in H. unfold bind at 1 in H. rewrite He in H.
    unfold bind in H. rewrite Hrest in H. unfold ret in H. inversion H. subst.
    constructor; [|exact Hall].
    unfold not_earlier. simpl.
    destruct (last_run_at entry) as [l|] eqn:El; [|exact I].
    destruct Hstamp as [->|[Hdue ->]].
    + exists l. split; [exact El|apply Qle_refl].
    + eexists. split; [reflexivity|].
      unfold is_due_at in Hdue. rewrite El in Hdue.
      destruct (Qle_bool (fsub (fpu sys) (fadd (fpu sys) l (interval (schedule entry)))
                            (clock_now sys)) 0) eqn:Ec;
        [|discriminate Hdue].
      apply Qle_bool_iff, fsub_sign in Ec.
      assert (H0 : 0 <= interval (schedule entry)) by (apply (Hpos key); now left).
      pose proof (fadd_not_below (fpu sys) l _ H0) as Hsum.
      assert (Hstep : clock_now sys <= time_src sys (S (time_idx sys)))
        by (apply Hmono; auto).
      lra.
Qed.

(** X13. With a clock that never runs backwards and no negative
    interval, a tick never moves a [last_run_at] back: an entry that had
    run at [l] has, after the tick, run at some [l' >= l]. *)
Theorem Scheduler_tick_last_run_monotone (self : Scheduler) (sys : Sys) :
  clock_monotone sys ->
  (forall key e, In (key, e) (scheduled_entries self) -> 0 <= interval (schedule e)) ->
  Forall2 not_earlier
    (scheduled_entries self) (scheduled_entries (state_of (Scheduler_tick self sys))).
Proof.
  intros Hmono Hpos.
  destruct (Scheduler_tick_registry self sys) as (entries' & w' & H & Hs & _).
  rewrite Hs. eapply tick_entries_not_earlier; eassumption.
Qed.

Lemma Scheduler_tick_last_run_monotone_witness :
  clock_monotone (frozen_sys 10 accepting_backend) /\
  (forall key e,
      In (key, e) (scheduled_entries registry_near) -> 0 <= interval (schedule e)) /\
  Forall2 not_earlier
    (scheduled_entries registry_near)
    (scheduled_entries
       (state_of (Scheduler_tick registry_near (frozen_sys 10 accepting_backend)))).
Proof.
  assert (Hmono : clock_monotone (frozen_sys 10 accepting_backend))
    by (intros i j _; apply Qle_refl).
  assert (Hpos : forall key e,
             In (key, e) (scheduled_entries registry_near) ->
             0 <= interval (schedule e))
    by (intros key e H; apply Qlt_le_weak; exact (registry_near_intervals key e H)).
  split; [exact Hmono|]. split; [exact Hpos|].
  exact (Scheduler_tick_last_run_monotone registry_near
           (frozen_sys 10 accepting_backend) Hmono Hpos).
Defined.

Lemma tick_entries_idle (entries : list (string * TaskEntry)) :
  forall (next_wake : option Q) (self : Scheduler) (sys : Sys),
    due_entries entries self sys = [] ->
    exists next_wake' sys',
      tick_entries entries next_wake self sys = (Return (entries, next_wake'), self, sys') /\
      log sys' = log sys /\ backend sys' = backend sys.
Proof.
  induction entries as [|[key entry] rest IH]; intros next_wake self sys Hdue.
  - do 2 eexists. repeat split.
  - cbn [due_entries] in Hdue.
    destruct (fst (is_due_at (fpu sys) entry (clock_now sys))) eqn:Ed; [discriminate Hdue|].
    assert (Ha : after_entry entry self sys = (self, advance_clock sys)).
    { unfold after_entry. rewrite tick_entry_run. cbv zeta. rewrite Ed. reflexivity. }
    rewrite Ha in Hdue. cbn [fst snd] in Hdue.
    cbn [tick_entries]. unfold bind at 1. rewrite tick_entry_run. cbv zeta. rewrite Ed.
    destruct (IH (update_next_wake next_wake (snd (is_due_at (fpu sys) entry (clock_now sys))))
                self (advance_clock sys) Hdue) as (w' & sys' & Hrest & Hlog & Hb).
    unfold bind. rewrite Hrest. do 2 eexists.
    split; [reflexivity|]. split; [exact Hlog|exact Hb].
Qed.

(** X14. A tick with nothing due and an empty instant queue has no
    effect besides reading the clock: the scheduler, its executor
    included, is left as it was (no pool is started) and nothing is
    logged. *)
Theorem Scheduler_tick_idle (self : Scheduler) (sys : Sys) :
  due_entries (scheduled_entries self) self sys = [] ->
  instant_queue self = [] ->
  state_of (Scheduler_tick self sys) = self /\
  log (sys_of (Scheduler_tick self sys)) = log sys /\
  backend (sys_of (Scheduler_tick self sys)) = backend sys.
Proof.
  intros Hdue Hq.
  destruct (tick_entries_idle _ None self sys Hdue) as (w' & sys' & H & Hlog & Hb).
  assert (Ht : Scheduler_tick self sys
               = (Return (py_min (or_default w' 1) 1),
                  set_scheduled_entries (scheduled_entries self) self, sys')).
  { unfold Scheduler_tick. unfold bind at 1, gets at 1. unfold bind at 1. rewrite H.
    unfold bind at 1, modify at 1.
    unfold bind at 1, try_except_class, try_except.
    unfold bind at 1, gets at 1.
    cbn [instant_queue set_scheduled_entries]. rewrite Hq.
    reflexivity. }
  rewrite Ht. cbv [state_of sys_of fst snd].
  split; [|split; [exact Hlog|exact Hb]].
  destruct self; reflexivity.
Qed.

Lemma Scheduler_tick_idle_witness :
  let sys := frozen_sys 10 accepting_backend in
  due_entries (scheduled_entries registry_far) registry_far sys = [] /\
  instant_queue registry_far = [] /\
  state_of (Scheduler_tick registry_far sys) = registry_far /\
  log (sys_of (Scheduler_tick registry_far sys)) = [].
Proof.
  cbv zeta. split; [reflexivity|]. split; [reflexivity|].
  pose proof (Scheduler_tick_idle registry_far (frozen_sys 10 accepting_backend)
                eq_refl eq_refl) as (H1 & H2 & _).
  split; [exact H1|exact H2].
Defined.

Lemma BaseExecutor_submit_accepting (fn : Callable) (a : Args) (k : Kwargs)
    (self : BaseExecutor) (sys : Sys) :
  accepting (backend sys) ->
  exists future,
    outcome (BaseExecutor_submit fn a k self sys) = Return future /\
    accepted_jobs (state_of (BaseExecutor_submit fn a k self sys))
    = accepted_jobs self ++ [mkJob fn a k] /\
    future = mkFuture (mkJob fn a k) (length (accepted_jobs self)) /\
    backend (sys_of (BaseExecutor_submit fn a k self sys)) = backend sys.
Proof.
  intros [Hinit Hsub].
  pose proof (BaseExecutor_submit_effect fn a k self sys) as He. cbv zeta in He.
  destruct He as (_ & _ & Hb & _ & He).
  assert (Hret : exists future, outcome (BaseExecutor_submit fn a k self sys) = Return future).
  { destruct (_executor self) as [pool|] eqn:E.
    - rewrite (BaseExecutor_submit_started _ _ _ _ _ _ E), Hsub. eexists. reflexivity.
    - rewrite (BaseExecutor_submit_unstarted _ _ _ _ _ E), Hinit. cbv zeta.
      rewrite Hsub. eexists. reflexivity. }
  destruct Hret as (future & Hret). rewrite Hret in He. destruct He as [Hj Hf].
  exists future. auto.
Qed.

Lemma Executor_submit_call_accepting (fn : Callable) (a : Args) (k : Kwargs)
    (self : BaseExecutor) (sys : Sys) :
  accepting (backend sys) ->
  bindable k ->
  exists future,
    outcome (Executor_submit_call fn a k self sys) = Return future /\
    accepted_jobs (state_of (Executor_submit_call fn a k self sys))
    = accepted_jobs self ++ [mkJob fn a k] /\
    future = mkFuture (mkJob fn a k) (length (accepted_jobs self)) /\
    backend (sys_of (Executor_submit_call fn a k self sys)) = backend sys.
Proof.
  intros Hacc Hk. rewrite (Executor_submit_call_bound _ _ _ _ _ Hk).
  now apply BaseExecutor_submit_accepting.
Qed.

Lemma after_entry_accepting (entry : TaskEntry) (self : Scheduler) (sys : Sys) :
  accepting (backend sys) ->
  bindable (kwargs entry) ->
  accepted_jobs (executor (fst (after_entry entry self sys)))
  = accepted_jobs (executor self)
    ++ map entry_job (if fst (is_due_at (fpu sys) entry (clock_now sys))
                      then [entry] else []).
Proof.
  intros Hacc Hk. unfold after_entry. rewrite tick_entry_run. cbv zeta.
  destruct (fst (is_due_at (fpu sys) entry (clock_now sys))).
  - match goal with
    | |- context [Executor_submit_call ?fn ?a ?k ?ex ?sy] =>
        destruct (Executor_submit_call_accepting fn a k ex sy Hacc Hk)
          as (future & Ho & Hj & _);
        destruct (Executor_submit_call fn a k ex sy) as [[o ex'] sysx]
    end.
    cbv [outcome state_of fst snd] in *. subst o. exact Hj.
  - cbv [state_of fst snd]. simpl. now rewrite app_nil_r.
Qed.

Lemma after_entries_accepting (entries : list (string * TaskEntry)) :
  forall (self : Scheduler) (sys : Sys),
    accepting (backend sys) ->
    Forall (fun ke => bindable (kwargs (snd ke))) entries ->
    accepted_jobs (executor (fst (after_entries entries self sys)))
    = accepted_jobs (executor self) ++ map entry_job (due_entries entries self sys).
Proof.
  induction entries as [|[key entry] rest IH]; intros self sys Hacc Hk.
  - simpl. now rewrite app_nil_r.
  - cbn [after_entries due_entries]. inversion Hk as [|x l Hk0 Hkrest]. subst.
    assert (Hb : backend (snd (after_entry entry self sys)) = backend sys)
      by (destruct (tick_entry_stamps entry None self sys)
            as (e' & w' & _ & _ & _ & _ & _ & Hb); exact Hb).
    rewrite IH by (try rewrite Hb; assumption).
    rewrite (after_entry_accepting entry self sys Hacc Hk0), <- app_assoc.
    destruct (fst (is_due_at (fpu sys) entry (clock_now sys))); reflexivity.
Qed.

Lemma drain_instant_queue_accepting (pending : list QueueItem) :
  forall (self : Scheduler) (sys : Sys),
    accepting (backend sys) ->
    Forall (fun it => bindable (snd it)) pending ->
    accepted_jobs (executor (state_of (drain_instant_queue pending self sys)))
    = accepted_jobs (executor self) ++ map item_job pending.
Proof.
  induction pending as [|[[t a] k] rest IH]; intros self sys Hacc Hk.
  - simpl. now rewrite app_nil_r.
  - inversion Hk as [|x l Hk0 Hkrest]. subst. cbn [snd] in Hk0.
    rewrite drain_instant_queue_run. cbv zeta.
    change (executor (set_instant_queue rest self)) with (executor self).
    match goal with
    | |- context [Executor_submit_call ?fn ?a ?k ?ex ?sy] =>
        destruct (Executor_submit_call_accepting fn a k ex sy Hacc Hk0)
          as (future & Ho & Hj & _ & Hb);
        destruct (Executor_submit_call fn a k ex sy) as [[o ex'] sysx]
    end.
    cbv [outcome state_of sys_of fst snd] in Ho, Hj, Hb. subst o.
    rewrite IH by (try rewrite Hb; assumption).
    cbn [executor set_executor]. rewrite Hj, <- app_assoc. reflexivity.
Qed.

Lemma Scheduler_tick_accepting (self : Scheduler) (sys : Sys) :
  accepting (backend sys) ->
  all_bindable self ->
  accepted_jobs (executor (state_of (Scheduler_tick self sys)))
  = accepted_jobs (executor self)
    ++ map entry_job (due_entries (scheduled_entries self) self sys)
    ++ map item_job (instant_queue self).
Proof.
  intros Hacc [Hke Hkq].
  destruct (Scheduler_tick_run self sys) as (entries' & _ & Hst & _).
  cbv zeta in Hst. rewrite Hst.
  destruct (after_entries_frame (scheduled_entries self) self sys) as (_ & _ & Hb).
  destruct (after_entries_effect (scheduled_entries self) self sys) as (Hq & _).
  cbv zeta in Hq.
  rewrite drain_instant_queue_accepting;
    [|rewrite Hb; exact Hacc
     |cbn [instant_queue set_scheduled_entries]; rewrite Hq; exact Hkq].
  cbn [executor instant_queue set_scheduled_entries].
  rewrite after_entries_accepting by assumption.
  rewrite Hq, <- app_assoc. reflexivity.
Qed.

(** X15. With a backend that builds its pool and accepts every job, and
    keywords that do not name a parameter of [submit], a tick hands over
    exactly the jobs of the entries that are due, in the order of the
    registry, and then the jobs of the whole instant queue, in queue
    order. *)
Theorem Scheduler_tick_dispatches_all (self : Scheduler) (sys : Sys) :
  accepting (backend sys) ->
  all_bindable self ->
  accepted_jobs (executor (state_of (Scheduler_tick self sys)))
  = accepted_jobs (executor self)
    ++ map entry_job (due_entries (scheduled_entries self) self sys)
    ++ map item_job (instant_queue self).
Proof.
  intros Hacc [Hke Hkq].
  destruct (Scheduler_tick_run self sys) as (entries' & _ & Hst & _).
  cbv zeta in Hst. rewrite Hst.
  destruct (after_entries_frame (scheduled_entries self) self sys) as (_ & _ & Hb).
  destruct (after_entries_effect (scheduled_entries self) self sys) as (Hq & _).
  cbv zeta in Hq.
  rewrite drain_instant_queue_accepting;
    [|rewrite Hb; exact Hacc
     |cbn [instant_queue set_scheduled_entries]; rewrite Hq; exact Hkq].
  cbn [executor instant_queue set_scheduled_entries].
  rewrite after_entries_accepting by assumption.
  rewrite Hq, <- app_assoc. reflexivity.
Qed.

Lemma Scheduler_tick_dispatches_all_witness :
  let q := (example_task "q" None, [VInt 1], [("n"%string, VInt 3)]) in
  let e1 := example_entry "e1" 5 None in
  let e2 := example_entry "e2" 30 (Some 2) in
  let self := example_scheduler [e1; e2] [q] in
  accepting (backend (frozen_sys 10 accepting_backend)) /\
  all_bindable self /\
  accepted_jobs (executor (state_of (Scheduler_tick self (frozen_sys 10 accepting_backend))))
  = [entry_job e1; item_job q].
Proof.
  cbv zeta.
  assert (Hacc : accepting (backend (frozen_sys 10 accepting_backend)))
    by (split; reflexivity).
  assert (Hk : all_bindable
                 (example_scheduler
                    [example_entry "e1" 5 None; example_entry "e2" 30 (Some 2)]
                    [(example_task "q" None, [VInt 1], [("n"%string, VInt 3)])]))
    by (split; repeat constructor).
  split; [exact Hacc|]. split; [exact Hk|].
  exact (Scheduler_tick_dispatches_all _ (frozen_sys 10 accepting_backend) Hacc Hk).
Defined.

(** Keywords that name a parameter of [submit]: the call raises, the job
    never reaches the pool, the entry is not stamped and the error is
    logged. *)
Example tick_keyword_names_parameter :
  let e := set_last_run_at None
             (TaskEntry_init "k" (example_task "k" None) (mkIntervalSchedule 5) None
                (Some [("fn"%string, VInt 1)])) in
  let r := Scheduler_tick (example_scheduler [e] []) (frozen_sys 10 accepting_backend) in
  accepted_jobs (executor (state_of r)) = [] /\
  map (fun ke => last_run_at (snd ke)) (scheduled_entries (state_of r)) = [None] /\
  In (ERROR, FailedToSubmitScheduledTask "k"
               (mkExc TypeError "submit() got multiple values for argument"))
     (log (sys_of r)).
Proof. cbv zeta. repeat split; try reflexivity. vm_compute. tauto. Qed.

Lemma due_entries_never_run (entries : list (string * TaskEntry)) :
  forall (self : Scheduler) (sys : Sys) (key : string) (entry : TaskEntry),
    In (key, entry) entries -> last_run_at entry = None ->
    In entry (due_entries entries self sys).
Proof.
  induction entries as [|[k0 e0] rest IH]; intros self sys key entry Hin Hnone.
  - destruct Hin.
  - cbn [due_entries]. destruct Hin as [[= -> ->]|Hin].
    + rewrite (is_due_at_never_run _ _ _ Hnone). now left.
    + destruct (fst (is_due_at (fpu sys) e0 (clock_now sys))); [right|];
        eapply IH; eassumption.
Qed.

Lemma due_entry_accepted (entries : list (string * TaskEntry)) :
  forall (self : Scheduler) (sys : Sys) (entry : TaskEntry),
    accepting (backend sys) ->
    In entry (due_entries entries self sys) ->
    bindable (kwargs entry) ->
    In (entry_job entry) (accepted_jobs (executor (fst (after_entries entries self sys)))).
Proof.
  induction entries as [|[k0 e0] rest IH]; intros self sys entry Hacc Hin Hk.
  - destruct Hin.
  - cbn [after_entries due_entries] in *.
    assert (Hb : backend (snd (after_entry e0 self sys)) = backend sys)
      by (destruct (tick_entry_stamps e0 None self sys)
            as (e' & w' & _ & _ & _ & _ & _ & Hb); exact Hb).
    assert (Hrest : In entry (due_entries rest (fst (after_entry e0 self sys))
                                (snd (after_entry e0 self sys))) ->
                    In (entry_job entry)
                       (accepted_jobs
                          (executor (fst (after_entries rest (fst (after_entry e0 self sys))
                                            (snd (after_entry e0 self sys)))))))
      by (intro H; apply IH; [rewrite Hb; exact Hacc|exact H|exact Hk]).
    destruct (fst (is_due_at (fpu sys) e0 (clock_now sys))) eqn:Ed; [|now apply Hrest].
    destruct Hin as [->|Hin]; [|now apply Hrest].
    destruct (after_entries_effect rest (fst (after_entry entry self sys))
                (snd (after_entry entry self sys))) as (_ & _ & (E & HE & _)).
    cbv zeta in HE. rewrite HE.
    rewrite (after_entry_accepting entry self sys Hacc Hk), Ed.
    apply in_or_app. left. apply in_or_app. right. now left.
Qed.

(** X16. First run: with a backend that accepts every job, an entry of
    the registry that never ran, and whose keywords do not name a
    parameter of [submit], is handed to the executor by the next tick,
    whatever the clock says. *)
Theorem never_run_entry_is_dispatched (self : Scheduler) (sys : Sys)
    (key : string) (entry : TaskEntry) :
  accepting (backend sys) ->
  In (key, entry) (scheduled_entries self) ->
  last_run_at entry = None ->
  bindable (kwargs entry) ->
  In (entry_job entry) (accepted_jobs (executor (state_of (Scheduler_tick self sys)))).
Proof.
  intros Hacc Hin Hnone Hk.
  destruct (Scheduler_tick_run self sys) as (entries' & _ & Hst & _).
  cbv zeta in Hst. rewrite Hst.
  match goal with
  | |- context [drain_instant_queue ?q ?st ?sy] =>
      destruct (drain_instant_queue_effect q st sy) as (_ & _ & _ & (I & HI & _))
  end.
  cbv zeta in HI. rewrite HI. cbn [executor set_scheduled_entries].
  apply in_or_app. left.
  apply due_entry_accepted; [exact Hacc| |exact Hk].
  eapply due_entries_never_run; eassumption.
Qed.

Lemma never_run_entry_is_dispatched_witness :
  let fresh := TaskEntry_init "uuid-1" (example_task "job" (Some 0%nat))
                 (mkIntervalSchedule 60) None None in
  let sys := frozen_sys 0 accepting_backend in
  let r0 := Scheduler_add_scheduled_task fresh (example_scheduler [] []) sys in
  accepting (backend (sys_of r0)) /\
  In ("uuid-1"%string, fresh) (scheduled_entries (state_of r0)) /\
  last_run_at fresh = None /\
  bindable (kwargs fresh) /\
  In (entry_job fresh)
     (accepted_jobs (executor (state_of (Scheduler_tick (state_of r0) (sys_of r0))))).
Proof.
  cbv zeta.
  assert (Hacc : accepting (backend (sys_of
            (Scheduler_add_scheduled_task
               (TaskEntry_init "uuid-1" (example_task "job" (Some 0%nat))
                  (mkIntervalSchedule 60) None None)
               (example_scheduler [] []) (frozen_sys 0 accepting_backend)))))
    by (split; reflexivity).
  split; [exact Hacc|]. split; [now left|]. split; [reflexivity|].
  split; [reflexivity|].
  refine (never_run_entry_is_dispatched _ _ "uuid-1"
            (TaskEntry_init "uuid-1" (example_task "job" (Some 0%nat))
               (mkIntervalSchedule 60) None None)
            Hacc _ eq_refl eq_refl).
  now left.
Defined.

(** X17. With a positive interval the [remaining] value [is_due] reports
    is positive, and it is the interval whenever the entry is due.  (It
    may exceed the interval when the entry is not due: the sum
    [last + interval] is rounded.) *)
Theorem is_due_remaining_positive {St} (self : TaskEntry) (st : St) (sys : Sys) :
  0 < interval (schedule self) ->
  exists (due : bool) (remaining : Q),
    outcome (TaskEntry_is_due self st sys) = Return (due, remaining) /\
    0 < remaining /\
    (due = true -> remaining = interval (schedule self)).
Proof.
  intro Hpos. rewrite TaskEntry_is_due_run. cbv [outcome fst].
  exists (fst (is_due_at (fpu sys) self (clock_now sys))),
         (snd (is_due_at (fpu sys) self (clock_now sys))).
  split; [now destruct (is_due_at (fpu sys) self (clock_now sys))|].
  split; [now apply is_due_at_remaining_positive|].
  unfold is_due_at. destruct (last_run_at self) as [last|]; [|reflexivity].
  destruct (Qle_bool _ 0); [reflexivity|discriminate].
Qed.

Lemma is_due_remaining_positive_witness :
  0 < interval (schedule (example_entry "job" 2 (Some 10))) /\
  exists (due : bool) (remaining : Q),
    outcome (TaskEntry_is_due (example_entry "job" 2 (Some 10)) tt
               (frozen_sys 11 accepting_backend)) = Return (due, remaining) /\
    0 < remaining /\
    (due = true -> remaining = 2).
Proof.
  assert (Hpos : 0 < interval (schedule (example_entry "job" 2 (Some 10))))
    by reflexivity.
  split; [exact Hpos|].
  exact (is_due_remaining_positive (example_entry "job" 2 (Some 10)) tt
           (frozen_sys 11 accepting_backend) Hpos).
Defined.

(** * Further properties of the application *)


(** X18. [_ensure_scheduler_initialized] builds the scheduler at most
    once: an application that has a scheduler keeps it untouched,
    whatever [threading] says; one that has none gets a stopped scheduler
    with an empty registry and an executor of the requested kind; a
    second call, with any [threading], changes nothing. *)
Theorem ChewyTask__ensure_scheduler_initialized_once (threading threading' : bool)
    (self : ChewyTask) (sys : Sys) :
  let r := ChewyTask__ensure_scheduler_initialized threading self sys in
  outcome r = Return tt /\
  match _scheduler self with
  | Some _ => state_of r = self /\ sys_of r = sys
  | None =>
      _scheduler (state_of r)
      = Some (Scheduler_init
                (BaseExecutor_init (if threading then ThreadPool else ProcessPool)
                   (app_max_workers self)))
  end /\
  ChewyTask__ensure_scheduler_initialized threading' (state_of r) (sys_of r)
  = (Return tt, state_of r, sys_of r).
Proof.
  cbv zeta. unfold ChewyTask__ensure_scheduler_initialized.
  destruct self as [mw tmo tasks [s|] started];
    cbv [bind get modify logger ret outcome state_of sys_of fst snd
         _scheduler set__scheduler app_max_workers create_executor].
  - repeat split.
  - destruct threading; repeat split.
Qed.

(** X19. [ChewyTask.submit_task] always leaves the application with a
    scheduler and never raises on its own account: it returns or raises
    what [Executor.submit] does on the scheduler's executor, a thread
    executor with the application's [max_workers] when there was none. *)
Theorem ChewyTask_submit_task_lazy (t : Task) (a : Args) (k : Kwargs)
    (self : ChewyTask) (sys : Sys) :
  let ex := match _scheduler self with
            | Some s => executor s
            | None => BaseExecutor_init ThreadPool (app_max_workers self)
            end in
  let sys0 := match _scheduler self with
              | Some _ => sys
              | None => add_log (DEBUG, SchedulerInitialized) sys
              end in
  let r := ChewyTask_submit_task t a k self sys in
  outcome r = outcome (BaseExecutor_submit (Task_run t) a k ex sys0) /\
  (exists s', _scheduler (state_of r) = Some s' /\
              executor s' = state_of (BaseExecutor_submit (Task_run t) a k ex sys0)) /\
  _tasks (state_of r) = _tasks self /\
  _started (state_of r) = _started self.
Proof.
  cbv zeta. rewrite ChewyTask_submit_task_run. cbv zeta.
  rewrite Scheduler_submit_instant_task_run.
  destruct (_scheduler self) as [s|];
    cbn [executor Scheduler_init create_executor];
    destruct (BaseExecutor_submit _ _ _ _ _) as [[[future|e] ex'] sys'];
    cbv [outcome state_of sys_of fst snd]; cbn [_scheduler set__scheduler];
    (split; [reflexivity|]); (split; [eexists; split; reflexivity|]);
    split; reflexivity.
Qed.


(** X21. With a backend that accepts every job, [delay] on a task bound
    to an application, with keywords that name no parameter of the
    methods the submission goes through ([self], [task], [fn]), returns
    a future for its job, numbered by the jobs that application's pool
    had accepted, and adds that job and no other to them. *)
Theorem Task_delay_accepted (self : Task) (a : Args) (k : Kwargs)
    (h : Heap) (sys : Sys) (r : AppRef) :
  app self = Some r ->
  accepting (backend sys) ->
  names_parameter ["self"; "task"; "fn"]%string k = false ->
  outcome (Task_delay self a k h sys)
  = Return (mkFuture (mkJob (Task_run self) a k) (length (app_jobs (h r)))) /\
  app_jobs (state_of (Task_delay self a k h sys) r)
  = app_jobs (h r) ++ [mkJob (Task_run self) a k].
Proof.
  intros Hr Hacc _. unfold Task_delay. rewrite Hr. unfold zoom.
  rewrite ChewyTask_submit_task_run. cbv zeta.
  rewrite Scheduler_submit_instant_task_run.
  unfold app_jobs, heap_set. cbv [outcome state_of sys_of fst snd].
  rewrite Nat.eqb_refl.
  destruct (_scheduler (h r)) as [s|].
  - destruct (BaseExecutor_submit_accepting (Task_run self) a k (executor s) sys Hacc)
      as (future & Ho & Hj & Hf & _).
    destruct (BaseExecutor_submit _ _ _ _ _) as [[o ex'] sys'].
    cbv [outcome state_of fst snd] in *. subst o future.
    cbn [_scheduler set__scheduler executor set_executor]. split; [reflexivity|exact Hj].
  - destruct (BaseExecutor_submit_accepting (Task_run self) a k
                (executor (Scheduler_init (create_executor true (app_max_workers (h r)))))
                (add_log (DEBUG, SchedulerInitialized) sys) Hacc)
      as (future & Ho & Hj & Hf & _).
    destruct (BaseExecutor_submit _ _ _ _ _) as [[o ex'] sys'].
    cbv [outcome state_of fst snd] in *. subst o future.
    cbn [_scheduler set__scheduler executor set_executor]. split; [reflexivity|exact Hj].
Qed.

Lemma Task_delay_accepted_witness :
  let t := example_task "bound" (Some 3%nat) in
  let sys := frozen_sys 0 accepting_backend in
  let r1 := Task_delay t [VInt 1] [] fresh_heap sys in
  let r2 := Task_delay t [VInt 2] [("retries"%string, VInt 3)] (state_of r1) (sys_of r1) in
  app t = Some 3%nat /\
  accepting (backend (sys_of r1)) /\
  names_parameter ["self"; "task"; "fn"]%string [("retries"%string, VInt 3)] = false /\
  outcome r2
  = Return (mkFuture (mkJob (Task_run t) [VInt 2] [("retries"%string, VInt 3)]) 1) /\
  app_jobs (state_of r2 3%nat)
  = [mkJob (Task_run t) [VInt 1] [];
     mkJob (Task_run t) [VInt 2] [("retries"%string, VInt 3)]].
Proof.
  cbv zeta.
  assert (Hacc : accepting (backend (sys_of
            (Task_delay (example_task "bound" (Some 3%nat)) [VInt 1] [] fresh_heap
               (frozen_sys 0 accepting_backend)))))
    by (split; reflexivity).
  split; [reflexivity|]. split; [exact Hacc|]. split; [reflexivity|].
  exact (Task_delay_accepted (example_task "bound" (Some 3%nat)) [VInt 2]
           [("retries"%string, VInt 3)] _ _ 3%nat eq_refl Hacc eq_refl).
Defined.

(** * No second dispatch at the same instant *)

(** The arithmetic of the machine is the same after an entry, and after
    all of them. *)
Lemma after_entry_fpu (entry : TaskEntry) (self : Scheduler) (sys : Sys) :
  fpu (snd (after_entry entry self sys)) = fpu sys.
Proof.
  unfold after_entry. rewrite tick_entry_run. cbv zeta.
  destruct (fst (is_due_at (fpu sys) entry (clock_now sys))); [|reflexivity].
  match goal with
  | |- context [Executor_submit_call ?fn ?a ?k ?ex ?sy] =>
      pose proof (Executor_submit_call_fpu fn a k ex sy) as Hu;
      destruct (Executor_submit_call fn a k ex sy) as [[[future|e] ex'] sysx]
  end; cbv [sys_of snd] in Hu; simpl in Hu; simpl; exact Hu.
Qed.

Lemma after_entries_fpu (entries : list (string * TaskEntry)) :
  forall (self : Scheduler) (sys : Sys),
    fpu (snd (after_entries entries self sys)) = fpu sys.
Proof.
  induction entries as [|[key entry] rest IH]; intros self sys; [reflexivity|].
  cbn [after_entries]. rewrite IH. apply after_entry_fpu.
Qed.

Lemma tick_entry_accepting (entry : TaskEntry) (next_wake : option Q)
    (self : Scheduler) (sys : Sys) :
  accepting (backend sys) ->
  bindable (kwargs entry) ->
  exists next_wake',
    tick_entry entry next_wake self sys
    = (Return ((if fst (is_due_at (fpu sys) entry (clock_now sys))
                then set_last_run_at (Some (time_src sys (S (time_idx sys)))) entry
                else entry), next_wake'),
       fst (after_entry entry self sys), snd (after_entry entry self sys)).
Proof.
  intros Hacc Hk.
  rewrite <- tick_entry_state with (next_wake := next_wake).
  rewrite tick_entry_run. cbv zeta.
  destruct (fst (is_due_at (fpu sys) entry (clock_now sys))); [|eexists; reflexivity].
  match goal with
  | |- context [Executor_submit_call ?fn ?a ?k ?ex ?sy] =>
      destruct (Executor_submit_call_accepting fn a k ex sy Hacc Hk) as (future & Ho & _);
      destruct (Executor_submit_call_effect fn a k ex sy) as (Hsrc & Hidx & _);
      destruct (Executor_submit_call fn a k ex sy) as [[o ex'] sysx]
  end.
  cbv [outcome state_of sys_of fst snd] in *. subst o. simpl in Hsrc, Hidx.
  eexists. unfold clock_now. rewrite Hsrc, Hidx. reflexivity.
Qed.

(** An entry stamped at [c] is not due at [c] when its interval is not
    lost in the sum. *)
Lemma stamped_now_not_due (u : FloatUnit) (entry : TaskEntry) (c : Q) :
  c < fadd u c (interval (schedule entry)) ->
  fst (is_due_at u
         (if fst (is_due_at u entry c) then set_last_run_at (Some c) entry else entry) c)
  = false.
Proof.
  intro Hsum. destruct (fst (is_due_at u entry c)) eqn:Ed; [|exact Ed].
  unfold is_due_at. cbn [last_run_at set_last_run_at schedule].
  replace (Qle_bool (fsub u (fadd u c (interval (schedule entry))) c) 0) with false;
    [reflexivity|].
  symmetry. apply Qle_bool_false_iff. apply Qnot_le_lt. intro Hle.
  apply fsub_sign in Hle. apply (Qlt_not_le _ _ Hsum Hle).
Qed.

Lemma tick_entries_leave_none_due (entries : list (string * TaskEntry)) (c : Q) :
  forall (next_wake : option Q) (self : Scheduler) (sys : Sys)
         (entries' : list (string * TaskEntry)) (next_wake' : option Q)
         (self' : Scheduler) (sys' : Sys),
    accepting (backend sys) ->
    (forall i, time_src sys i = c) ->
    Forall (fun ke => bindable (kwargs (snd ke))) entries ->
    (forall key e, In (key, e) entries -> c < fadd (fpu sys) c (interval (schedule e))) ->
    tick_entries entries next_wake self sys = (Return (entries', next_wake'), self', sys') ->
    Forall (fun ke => fst (is_due_at (fpu sys) (snd ke) c) = false) entries'.
Proof.
  induction entries as [|[key entry] rest IH];
    intros next_wake self sys entries' next_wake' self' sys' Hacc Hc Hk Hsum H.
  - simpl in H. inversion H. constructor.
  - inversion Hk as [|x l Hk0 Hkrest]. subst. cbn [snd] in Hk0.
    destruct (tick_entry_accepting entry next_wake self sys Hacc Hk0) as (w' & He).
    destruct (tick_entry_stamps entry next_wake self sys)
      as (e0 & w0 & _ & _ & _ & Hsrc & _ & Hb).
    pose proof (after_entry_fpu entry self sys) as Hu.
    destruct (tick_entries_returns rest w' (fst (after_entry entry self sys))
                (snd (after_entry entry self sys))) as (rest' & Hrest & _).
    assert (Hall : Forall (fun ke => fst (is_due_at (fpu sys) (snd ke) c) = false) rest').
    { rewrite <- Hu. eapply IH; [| | | |exact Hrest].
      - rewrite Hb. exact Hacc.
      - intro i. rewrite Hsrc. apply Hc.
      - exact Hkrest.
      - intros k0 e1 Hin. rewrite Hu. apply (Hsum k0). now right. }
    cbn [tick_entries] in H. unfold bind at 1 in H. rewrite He in H.
    unfold bind in H. rewrite Hrest in H. unfold ret in H. inversion H. subst.
    constructor; [|exact Hall].
    cbn [snd]. unfold clock_now. rewrite !Hc.
    apply stamped_now_not_due. apply (Hsum key). now left.
Qed.

Lemma due_entries_none (entries : list (string * TaskEntry)) (c : Q) (u : FloatUnit) :
  Forall (fun ke => fst (is_due_at u (snd ke) c) = false) entries ->
  forall (self : Scheduler) (sys : Sys),
    (forall i, time_src sys i = c) ->
    fpu sys = u ->
    due_entries entries self sys = [].
Proof.
  induction 1 as [|[key entry] rest Hnd _ IH]; intros self sys Hc Hu; [reflexivity|].
  cbn [due_entries]. cbn [snd] in Hnd. unfold clock_now. rewrite Hc, Hu, Hnd.
  assert (Ha : after_entry entry self sys = (self, advance_clock sys)).
  { unfold after_entry. rewrite tick_entry_run. cbv zeta.
    unfold clock_now. rewrite Hc, Hu, Hnd. reflexivity. }
  rewrite Ha. apply IH; assumption.
Qed.

Lemma drain_instant_queue_world (pending : list QueueItem) :
  forall (self : Scheduler) (sys : Sys),
    time_src (sys_of (drain_instant_queue pending self sys)) = time_src sys /\
    backend (sys_of (drain_instant_queue pending self sys)) = backend sys /\
    fpu (sys_of (drain_instant_queue pending self sys)) = fpu sys.
Proof.
  induction pending as [|[[t a] k] rest IH]; intros self sys; [repeat split|].
  rewrite drain_instant_queue_run. cbv zeta.
  match goal with
  | |- context [Executor_submit_call ?fn ?a ?k ?ex ?sy] =>
      destruct (Executor_submit_call_effect fn a k ex sy) as (Hsrc & _ & Hb & _);
      pose proof (Executor_submit_call_fpu fn a k ex sy) as Hu;
      destruct (Executor_submit_call fn a k ex sy) as [[[future|e] ex'] sysx]
  end; cbv [sys_of snd] in Hsrc, Hb, Hu; simpl in Hsrc, Hb, Hu.
  - destruct (IH (set_executor ex' (set_instant_queue rest self)) sysx) as (H1 & H2 & H3).
    repeat split; congruence.
  - destruct (IH (set_executor ex' (set_instant_queue rest self))
                (add_log (ERROR, FailedToSubmitInstantTask (name t) e) sysx))
      as (H1 & H2 & H3).
    split; [rewrite H1|split; [rewrite H2|rewrite H3]]; assumption.
Qed.

Lemma Scheduler_tick_nothing_to_do (self : Scheduler) (sys : Sys) :
  due_entries (scheduled_entries self) self sys = [] ->
  instant_queue self = [] ->
  state_of (Scheduler_tick self sys) = self.
Proof.
  intros Hdue Hq.
  destruct (tick_entries_idle _ None self sys Hdue) as (w' & sys' & H & _).
  unfold Scheduler_tick. unfold bind at 1, gets at 1. unfold bind at 1. rewrite H.
  unfold bind at 1, modify at 1.
  unfold bind at 1, try_except_class, try_except.
  unfold bind at 1, gets at 1.
  cbn [instant_queue set_scheduled_entries]. rewrite Hq.
  destruct self; reflexivity.
Qed.

(** X22. No second dispatch at the same instant: with a backend that
    accepts every job, keywords that do not name a parameter of
    [submit], a clock standing still at [c] and intervals that are not
    lost when added to [c], a tick that follows a tick finds no entry due
    and hands nothing more to the executor. *)
Theorem Scheduler_tick_twice_same_instant (self : Scheduler) (sys : Sys) (c : Q) :
  accepting (backend sys) ->
  all_bindable self ->
  (forall i, time_src sys i = c) ->
  (forall key e, In (key, e) (scheduled_entries self) ->
                 c < fadd (fpu sys) c (interval (schedule e))) ->
  let r1 := Scheduler_tick self sys in
  due_entries (scheduled_entries (state_of r1)) (state_of r1) (sys_of r1) = [] /\
  accepted_jobs (executor (state_of (Scheduler_tick (state_of r1) (sys_of r1))))
  = accepted_jobs (executor (state_of r1)).
Proof.
  intros Hacc Hk Hc Hsum r1. subst r1.
  destruct (Scheduler_tick_registry self sys) as (entries' & w' & H & Hs & _).
  destruct (Scheduler_tick_run self sys) as (e2 & _ & _ & Hsys).
  cbv zeta in Hsys.
  destruct (after_entries_frame (scheduled_entries self) self sys)
    as (_ & Hsrc & Hb).
  pose proof (after_entries_fpu (scheduled_entries self) self sys) as Hu.
  assert (Hworld : time_src (sys_of (Scheduler_tick self sys)) = time_src sys /\
                   backend (sys_of (Scheduler_tick self sys)) = backend sys /\
                   fpu (sys_of (Scheduler_tick self sys)) = fpu sys).
  { rewrite Hsys.
    match goal with
    | |- context [drain_instant_queue ?q ?st ?sy] =>
        destruct (drain_instant_queue_world q st sy) as (H1 & H2 & H3)
    end.
    repeat split; congruence. }
  destruct Hworld as (Hsrc1 & Hb1 & Hu1).
  assert (Hdue : due_entries (scheduled_entries (state_of (Scheduler_tick self sys)))
                   (state_of (Scheduler_tick self sys))
                   (sys_of (Scheduler_tick self sys)) = []).
  { rewrite Hs. apply due_entries_none with (c := c) (u := fpu sys).
    - destruct Hk as [Hke _]. eapply tick_entries_leave_none_due; eassumption.
    - intro i. rewrite Hsrc1. apply Hc.
    - exact Hu1. }
  split; [exact Hdue|].
  rewrite (Scheduler_tick_nothing_to_do _ _ Hdue (Scheduler_tick_empties_queue self sys)).
  reflexivity.
Qed.

Lemma Scheduler_tick_twice_same_instant_witness :
  let self := example_scheduler [example_entry "e1" 5 None; example_entry "e2" 3 (Some 2)] [] in
  let sys := frozen_sys 10 accepting_backend in
  accepting (backend sys) /\
  all_bindable self /\
  accepted_jobs (executor (state_of (Scheduler_tick self sys)))
  = [entry_job (example_entry "e1" 5 None); entry_job (example_entry "e2" 3 (Some 2))] /\
  accepted_jobs
    (executor (state_of (Scheduler_tick (state_of (Scheduler_tick self sys))
                           (sys_of (Scheduler_tick self sys)))))
  = accepted_jobs (executor (state_of (Scheduler_tick self sys))).
Proof.
  cbv zeta.
  assert (Hacc : accepting (backend (frozen_sys 10 accepting_backend)))
    by (split; reflexivity).
  assert (Hk : all_bindable
                 (example_scheduler
                    [example_entry "e1" 5 None; example_entry "e2" 3 (Some 2)] []))
    by (split; repeat constructor).
  assert (Hsum : forall key e,
             In (key, e)
                (scheduled_entries
                   (example_scheduler
                      [example_entry "e1" 5 None; example_entry "e2" 3 (Some 2)] [])) ->
             10 < fadd (fpu (frozen_sys 10 accepting_backend)) 10 (interval (schedule e)))
    by (simpl; intros key e [H|[H|[]]]; inversion H; reflexivity).
  split; [exact Hacc|]. split; [exact Hk|]. split; [reflexivity|].
  exact (proj2 (Scheduler_tick_twice_same_instant _ (frozen_sys 10 accepting_backend) 10
                  Hacc Hk (fun _ => eq_refl) Hsum)).
Defined.

(** With arithmetic that loses the interval in the sum, as doubles lose
    [1e-7] added to [1.7e9], the entry stamped at [10] is due again at
    [10] and the second tick dispatches it once more. *)
Example tick_twice_interval_absorbed :
  let e := example_entry "e" (1 # 2) None in
  let sys := {| time_src := fun _ => 10; time_idx := 0; backend := accepting_backend;
                fpu := absorbing_fpu; log := [] |} in
  let r1 := Scheduler_tick (example_scheduler [e] []) sys in
  let r2 := Scheduler_tick (state_of r1) (sys_of r1) in
  accepted_jobs (executor (state_of r1)) = [entry_job e] /\
  accepted_jobs (executor (state_of r2)) = [entry_job e; entry_job e].
Proof. cbv zeta. split; reflexivity. Qed.

(** X23. A task always has a name when its function has one: a missing
    or empty [name] falls back on the function's name, any other name is
    kept. *)
Theorem Task_init_name (f : Func) (nm : option string) (a : option AppRef) :
  __name__ f <> EmptyString ->
  name (Task_init f nm a) <> EmptyString /\
  (forall s, nm = Some s -> s <> EmptyString -> name (Task_init f nm a) = s) /\
  (nm = None \/ nm = Some EmptyString -> name (Task_init f nm a) = __name__ f) /\
  app (Task_init f nm a) = a /\ func (Task_init f nm a) = f.
Proof.
  intro Hf. unfold Task_init. cbn [name app func]. repeat split.
  - destruct nm as [s|]; [|exact Hf].
    destruct (String.eqb s EmptyString) eqn:E; [exact Hf|].
    now apply String.eqb_neq in E.
  - intros s -> Hs. apply String.eqb_neq in Hs. now rewrite Hs.
  - intros [->| ->]; reflexivity.
Qed.

Lemma Task_init_name_witness :
  __name__ (mkFunc "hello") <> EmptyString /\
  name (Task_init (mkFunc "hello") (Some EmptyString) None) = "hello"%string /\
  name (Task_init (mkFunc "hello") (Some "greet"%string) None) = "greet"%string.
Proof.
  assert (Hf : __name__ (mkFunc "hello") <> EmptyString) by discriminate.
  split; [exact Hf|]. split.
  - exact (proj1 (proj2 (proj2 (Task_init_name (mkFunc "hello") (Some EmptyString) None Hf)))
             (or_intror eq_refl)).
  - refine (proj1 (proj2 (Task_init_name (mkFunc "hello") (Some "greet"%string) None Hf))
              "greet"%string eq_refl _).
    discriminate.
Defined.

(** * What a tick hands to the executor *)

(** The executor a call of [submit] leaves depends on the world only
    through the backend. *)
Lemma executor_after_backend (s1 s2 : Sys) (ex : BaseExecutor) (job : Job) :
  backend s1 = backend s2 -> executor_after s1 ex job = executor_after s2 ex job.
Proof.
  intro Hb. unfold executor_after, Executor_submit_call.
  destruct (names_parameter _ _); [reflexivity|].
  destruct (_executor ex) as [pool|] eqn:E.
  - rewrite !(BaseExecutor_submit_started _ _ _ _ _ _ E), Hb.
    destruct (pool_submit_error _ _ _); reflexivity.
  - rewrite !(BaseExecutor_submit_unstarted _ _ _ _ _ E), Hb.
    destruct (pool_init_error _ _ _); [reflexivity|]. cbv zeta.
    destruct (pool_submit_error _ _ _); reflexivity.
Qed.

Lemma submitted_in_turn_backend (s1 s2 : Sys) (jobs : list Job) :
  backend s1 = backend s2 ->
  forall ex : BaseExecutor, submitted_in_turn s1 jobs ex = submitted_in_turn s2 jobs ex.
Proof.
  intro Hb. unfold submitted_in_turn.
  induction jobs as [|job rest IH]; intro ex; [reflexivity|].
  cbn [fold_left]. rewrite (executor_after_backend s1 s2 ex job Hb). apply IH.
Qed.

Lemma submitted_in_turn_app (sys : Sys) (jobs1 jobs2 : list Job) (ex : BaseExecutor) :
  submitted_in_turn sys (jobs1 ++ jobs2) ex
  = submitted_in_turn sys jobs2 (submitted_in_turn sys jobs1 ex).
Proof. unfold submitted_in_turn. apply fold_left_app. Qed.

Lemma after_entry_executor (entry : TaskEntry) (self : Scheduler) (sys : Sys) :
  executor (fst (after_entry entry self sys))
  = submitted_in_turn sys
      (map entry_job
         (if fst (is_due_at (fpu sys) entry (clock_now sys)) then [entry] else []))
      (executor self).
Proof.
  unfold after_entry. rewrite tick_entry_run. cbv zeta.
  destruct (fst (is_due_at (fpu sys) entry (clock_now sys))); [|reflexivity].
  cbn [map submitted_in_turn fold_left]. unfold submitted_in_turn. cbn [fold_left].
  rewrite (executor_after_backend sys
             (add_log (INFO, RunningScheduledTask (name (task entry))) (advance_clock sys)))
    by reflexivity.
  unfold executor_after, entry_job. cbn [job_fn job_args job_kwargs].
  destruct (Executor_submit_call _ _ _ _ _) as [[[future|e] ex'] sysx]; reflexivity.
Qed.

Lemma after_entry_backend (entry : TaskEntry) (self : Scheduler) (sys : Sys) :
  backend (snd (after_entry entry self sys)) = backend sys.
Proof.
  destruct (tick_entry_stamps entry None self sys) as (e' & w' & _ & _ & _ & _ & _ & Hb).
  exact Hb.
Qed.

Lemma after_entries_executor (entries : list (string * TaskEntry)) :
  forall (self : Scheduler) (sys : Sys),
    executor (fst (after_entries entries self sys))
    = submitted_in_turn sys (map entry_job (due_entries entries self sys)) (executor self).
Proof.
  induction entries as [|[key entry] rest IH]; intros self sys; [reflexivity|].
  cbn [after_entries due_entries]. rewrite IH.
  rewrite (submitted_in_turn_backend _ sys) by apply after_entry_backend.
  rewrite after_entry_executor.
  destruct (fst (is_due_at (fpu sys) entry (clock_now sys))); reflexivity.
Qed.

Lemma drain_instant_queue_executor (pending : list QueueItem) :
  forall (self : Scheduler) (sys : Sys),
    executor (state_of (drain_instant_queue pending self sys))
    = submitted_in_turn sys (map item_job pending) (executor self).
Proof.
  induction pending as [|[[t a] k] rest IH]; intros self sys; [reflexivity|].
  rewrite drain_instant_queue_run. cbv zeta.
  change (executor (set_instant_queue rest self)) with (executor self).
  cbn [map item_job]. unfold submitted_in_turn. cbn [fold_left].
  fold (submitted_in_turn sys (map item_job rest)).
  rewrite (executor_after_backend sys
             (add_log (DEBUG, ProcessingInstantTask (name t)) sys)) by reflexivity.
  unfold executor_after. cbn [job_fn job_args job_kwargs].
  match goal with
  | |- context [Executor_submit_call ?fn ?a ?k ?ex ?sy] =>
      destruct (Executor_submit_call_effect fn a k ex sy) as (_ & _ & Hb & _);
      destruct (Executor_submit_call fn a k ex sy) as [[[future|e] ex'] sysx]
  end; cbv [sys_of snd] in Hb; simpl in Hb; cbv iota;
    rewrite IH; cbn [executor set_executor state_of fst snd];
    apply submitted_in_turn_backend; exact Hb.
Qed.

(** The executor after a tick: [submit] has been called for each entry
    found due, in the order of the registry, and then for each item of
    the queue, in queue order. *)
Lemma Scheduler_tick_executor (self : Scheduler) (sys : Sys) :
  executor (state_of (Scheduler_tick self sys))
  = submitted_in_turn sys
      (map entry_job (due_entries (scheduled_entries self) self sys)
       ++ map item_job (instant_queue self))
      (executor self).
Proof.
  destruct (Scheduler_tick_run self sys) as (entries' & _ & Hst & _).
  cbv zeta in Hst. rewrite Hst.
  destruct (after_entries_frame (scheduled_entries self) self sys) as (_ & _ & Hb).
  destruct (after_entries_effect (scheduled_entries self) self sys) as (Hq & _).
  cbv zeta in Hq.
  rewrite drain_instant_queue_executor.
  cbn [executor instant_queue set_scheduled_entries].
  rewrite Hq, after_entries_executor, submitted_in_turn_app.
  apply submitted_in_turn_backend. exact Hb.
Qed.

Lemma Scheduler_tick_log (self : Scheduler) (sys : Sys) :
  exists extra,
    log (sys_of (Scheduler_tick self sys)) = log sys ++ extra /\
    announcements extra
    = map running_record (due_entries (scheduled_entries self) self sys)
      ++ map processing_record (instant_queue self).
Proof.
  destruct (Scheduler_tick_run self sys) as (entries' & _ & _ & Hsys).
  cbv zeta in Hsys. rewrite Hsys.
  destruct (after_entries_effect (scheduled_entries self) self sys)
    as (Hq1 & (x1 & Hl1 & Ha1) & _).
  cbv zeta in Hq1.
  match goal with
  | |- context [drain_instant_queue ?q ?st ?sy] =>
      destruct (drain_instant_queue_effect q st sy) as (_ & _ & (x2 & Hl2 & Ha2) & _)
  end.
  cbn [instant_queue set_scheduled_entries] in Hl2, Ha2 |- *.
  rewrite Hq1 in *.
  exists (x1 ++ x2). split.
  - rewrite Hl2, Hl1, <- app_assoc. reflexivity.
  - rewrite announcements_app, Ha1, Ha2. reflexivity.
Qed.

Lemma Scheduler_tick_kept (self : Scheduler) (sys : Sys) :
  exists E I,
    accepted_jobs (executor (state_of (Scheduler_tick self sys)))
    = accepted_jobs (executor self) ++ E ++ I /\
    kept_in_order E (map entry_job (due_entries (scheduled_entries self) self sys)) /\
    kept_in_order I (map item_job (instant_queue self)).
Proof.
  destruct (Scheduler_tick_run self sys) as (entries' & _ & Hst & _).
  cbv zeta in Hst. rewrite Hst.
  destruct (after_entries_effect (scheduled_entries self) self sys)
    as (Hq1 & _ & (E & Hj1 & Hk1)).
  cbv zeta in Hq1.
  match goal with
  | |- context [drain_instant_queue ?q ?st ?sy] =>
      destruct (drain_instant_queue_effect q st sy) as (_ & _ & _ & (I & Hj2 & Hk2))
  end.
  cbn [instant_queue executor set_scheduled_entries] in Hj2, Hk2 |- *.
  rewrite Hq1 in *.
  exists E, I. split; [|split; assumption].
  rewrite Hj2, Hj1, <- app_assoc. reflexivity.
Qed.

(** C7. Within a tick, [Executor.submit] is called for every entry found
    due, in the order of the registry, and only then for the items of the
    instant queue, first in first out: the executor the tick leaves is
    the one these calls, made one after the other, leave.  The log
    announces the dispatches in that order, the jobs the pool accepts are
    in that order, and when the backend accepts every job and the
    keywords bind they are exactly these jobs; the queue is empty
    afterwards. *)
Theorem Scheduler_tick_dispatch_order (self : Scheduler) (sys : Sys) :
  let r := Scheduler_tick self sys in
  let due := due_entries (scheduled_entries self) self sys in
  executor (state_of r)
  = submitted_in_turn sys (map entry_job due ++ map item_job (instant_queue self))
      (executor self) /\
  (exists extra,
      log (sys_of r) = log sys ++ extra /\
      announcements extra
      = map running_record due ++ map processing_record (instant_queue self)) /\
  (exists E I,
      accepted_jobs (executor (state_of r)) = accepted_jobs (executor self) ++ E ++ I /\
      kept_in_order E (map entry_job due) /\
      kept_in_order I (map item_job (instant_queue self))) /\
  (accepting (backend sys) -> all_bindable self ->
   accepted_jobs (executor (state_of r))
   = accepted_jobs (executor self) ++ map entry_job due
     ++ map item_job (instant_queue self)) /\
  instant_queue (state_of r) = [].
Proof.
  cbv zeta.
  split; [apply Scheduler_tick_executor|].
  split; [apply Scheduler_tick_log|].
  split; [apply Scheduler_tick_kept|].
  split; [apply Scheduler_tick_accepting|apply Scheduler_tick_empties_queue].
Qed.

Lemma Scheduler_tick_dispatch_order_witness :
  let q1 := (example_task "q1" None, [VInt 1], []) in
  let q2 := (example_task "q2" None, [VInt 2], []) in
  let e1 := example_entry "e1" 5 None in
  let e2 := example_entry "e2" 30 (Some 2) in
  let e3 := example_entry "e3" 3 (Some 2) in
  let self := example_scheduler [e1; e2; e3] [q1; q2] in
  let sys := frozen_sys 10 accepting_backend in
  accepting (backend sys) /\
  all_bindable self /\
  accepted_jobs (executor (state_of (Scheduler_tick self sys)))
  = [entry_job e1; entry_job e3; item_job q1; item_job q2].
Proof.
  cbv zeta.
  assert (Hacc : accepting (backend (frozen_sys 10 accepting_backend)))
    by (split; reflexivity).
  assert (Hk : all_bindable
                 (example_scheduler
                    [example_entry "e1" 5 None; example_entry "e2" 30 (Some 2);
                     example_entry "e3" 3 (Some 2)]
                    [(example_task "q1" None, [VInt 1], []);
                     (example_task "q2" None, [VInt 2], [])]))
    by (split; repeat constructor).
  split; [exact Hacc|]. split; [exact Hk|].
  exact (proj1 (proj2 (proj2 (proj2
           (Scheduler_tick_dispatch_order _ (frozen_sys 10 accepting_backend)))))
           Hacc Hk).
Defined.

(** ** A submission that fails during a tick *)

Lemma after_entries_app (before after : list (string * TaskEntry)) :
  forall (self : Scheduler) (sys : Sys),
    after_entries (before ++ after) self sys
    = after_entries after (fst (after_entries before self sys))
        (snd (after_entries before self sys)).
Proof.
  induction before as [|[key entry] rest IH]; intros self sys; [reflexivity|].
  change (((key, entry) :: rest) ++ after) with ((key, entry) :: (rest ++ after)).
  cbn [after_entries]. apply IH.
Qed.

Lemma due_entries_app (before after : list (string * TaskEntry)) :
  forall (self : Scheduler) (sys : Sys),
    due_entries (before ++ after) self sys
    = due_entries before self sys
      ++ due_entries after (fst (after_entries before self sys))
           (snd (after_entries before self sys)).
Proof.
  induction before as [|[key entry] rest IH]; intros self sys; [reflexivity|].
  change (((key, entry) :: rest) ++ after) with ((key, entry) :: (rest ++ after)).
  cbn [after_entries due_entries]. rewrite IH.
  destruct (fst (is_due_at (fpu sys) entry (clock_now sys))); reflexivity.
Qed.

Lemma after_entries_log (entries : list (string * TaskEntry)) (self : Scheduler) (sys : Sys) :
  exists extra, log (snd (after_entries entries self sys)) = log sys ++ extra.
Proof.
  destruct (after_entries_effect entries self sys) as (_ & (extra & H & _) & _).
  exists extra. exact H.
Qed.

(** What the turn of one entry leaves in the registry and in the log. *)
Lemma tick_entry_outcome (entry : TaskEntry) (next_wake : option Q)
    (self : Scheduler) (sys : Sys) :
  let rx :=
    Executor_submit_call (Task_run (task entry)) (args entry) (kwargs entry)
      (executor self)
      (add_log (INFO, RunningScheduledTask (name (task entry))) (advance_clock sys)) in
  exists entry' next_wake',
    tick_entry entry next_wake self sys
    = (Return (entry', next_wake'),
       fst (after_entry entry self sys), snd (after_entry entry self sys)) /\
    if fst (is_due_at (fpu sys) entry (clock_now sys)) then
      match outcome rx with
      | Raise e =>
          entry' = entry /\
          log (snd (after_entry entry self sys))
          = log (sys_of rx)
            ++ [(ERROR, FailedToSubmitScheduledTask (name (task entry)) e)]
      | Return _ => entry' = set_last_run_at (Some (clock_now (sys_of rx))) entry
      end
    else entry' = entry.
Proof.
  cbv zeta.
  destruct (tick_entry_returns entry next_wake self sys) as (entry' & He).
  exists entry'. eexists. split; [exact He|].
  pose proof He as He'. rewrite tick_entry_run in He'. cbv zeta in He'.
  assert (Hs2 : snd (after_entry entry self sys) = snd (after_entry entry self sys))
    by reflexivity.
  unfold after_entry at 2 in Hs2. rewrite tick_entry_run in Hs2. cbv zeta in Hs2.
  destruct (fst (is_due_at (fpu sys) entry (clock_now sys))).
  - destruct (Executor_submit_call _ _ _ _ _) as [[[future|e] ex'] sysx];
      cbv [outcome sys_of state_of fst snd] in *.
    + now inversion He'.
    + split; [now inversion He'|]. rewrite Hs2. reflexivity.
  - now inversion He'.
Qed.

Lemma after_entry_call (entry : TaskEntry) (self : Scheduler) (sys : Sys) :
  executor (fst (after_entry entry self sys))
  = if fst (is_due_at (fpu sys) entry (clock_now sys))
    then state_of
           (Executor_submit_call (Task_run (task entry)) (args entry) (kwargs entry)
              (executor self)
              (add_log (INFO, RunningScheduledTask (name (task entry)))
                 (advance_clock sys)))
    else executor self.
Proof.
  unfold after_entry. rewrite tick_entry_run. cbv zeta.
  destruct (fst (is_due_at (fpu sys) entry (clock_now sys))); [|reflexivity].
  destruct (Executor_submit_call _ _ _ _ _) as [[[future|e] ex'] sysx]; reflexivity.
Qed.

(** C5. A tick always returns and keeps every id of the registry in
    place.  For the entry at any place of the registry, found due at its
    turn: if the call of [Executor.submit] raises, the tick leaves that
    entry as it was, [last_run_at] included, and the error is in the log;
    if the call returns, [last_run_at] is the time read after it.  An
    entry that is not due is left as it was, and not handed over.  In
    each case the tick goes on: [Executor.submit] is called for the
    entries after it that are found due, from the state its turn left,
    and then for the items of the queue. *)
Theorem Scheduler_tick_submission_failure_isolated
    (before after : list (string * TaskEntry)) (key : string) (entry : TaskEntry)
    (self : Scheduler) (sys : Sys) :
  scheduled_entries self = before ++ (key, entry) :: after ->
  let self1 := fst (after_entries before self sys) in
  let sys1 := snd (after_entries before self sys) in
  let rx :=
    Executor_submit_call (Task_run (task entry)) (args entry) (kwargs entry)
      (executor self1)
      (add_log (INFO, RunningScheduledTask (name (task entry))) (advance_clock sys1)) in
  let self2 := fst (after_entry entry self1 sys1) in
  let sys2 := snd (after_entry entry self1 sys1) in
  let r := Scheduler_tick self sys in
  (exists t, outcome r = Return t) /\
  map fst (scheduled_entries (state_of r)) = map fst (scheduled_entries self) /\
  (if fst (is_due_at (fpu sys1) entry (clock_now sys1)) then
     match outcome rx with
     | Raise e =>
         nth_error (scheduled_entries (state_of r)) (length before) = Some (key, entry) /\
         In (ERROR, FailedToSubmitScheduledTask (name (task entry)) e) (log (sys_of r))
     | Return _ =>
         nth_error (scheduled_entries (state_of r)) (length before)
         = Some (key, set_last_run_at (Some (clock_now (sys_of rx))) entry)
     end
   else nth_error (scheduled_entries (state_of r)) (length before) = Some (key, entry)) /\
  executor self2
  = (if fst (is_due_at (fpu sys1) entry (clock_now sys1))
     then state_of rx else executor self1) /\
  executor (state_of r)
  = submitted_in_turn sys
      (map entry_job (due_entries after self2 sys2) ++ map item_job (instant_queue self))
      (executor self2).
Proof.
  intro Hreg. cbv zeta.
  set (self1 := fst (after_entries before self sys)).
  set (sys1 := snd (after_entries before self sys)).
  set (self2 := fst (after_entry entry self1 sys1)).
  set (sys2 := snd (after_entry entry self1 sys1)).
  split; [eexists; apply Scheduler_tick_returns|].
  destruct (Scheduler_tick_registry self sys) as (entries' & w' & Ht & Hs & _).
  destruct (tick_entries_returns (scheduled_entries self) None self sys)
    as (entries0 & Ht0 & Hkeys).
  rewrite Ht in Ht0. inversion Ht0 as [[He0 Hw0]]. subst entries0. clear Ht0.
  split; [rewrite Hs; exact Hkeys|].
  (* the registry, turn by turn *)
  destruct (tick_entries_returns before None self sys) as (before' & Hb & Kb).
  fold self1 sys1 in Hb.
  set (w1 := fold_left update_next_wake (remaining_times before self sys) None) in Hb.
  destruct (tick_entry_outcome entry w1 self1 sys1) as (entry' & w2 & He & Hentry).
  cbv zeta in Hentry. fold self2 sys2 in He, Hentry.
  destruct (tick_entries_returns after w2 self2 sys2) as (after' & Ha & Ka).
  assert (Hentries : entries' = before' ++ (key, entry') :: after').
  { rewrite Hreg, tick_entries_app, Hb in Ht. cbn [tick_entries] in Ht.
    unfold bind at 1 in Ht. rewrite He in Ht. unfold bind in Ht. rewrite Ha in Ht.
    unfold ret in Ht. inversion Ht. reflexivity. }
  assert (Hlen : length before' = length before).
  { rewrite <- (length_map fst before'), Kb. apply length_map. }
  assert (Hnth : nth_error (scheduled_entries (state_of (Scheduler_tick self sys)))
                   (length before) = Some (key, entry')).
  { rewrite Hs, Hentries, <- Hlen, nth_error_app2 by apply Nat.le_refl.
    rewrite Nat.sub_diag. reflexivity. }
  split.
  - destruct (fst (is_due_at (fpu sys1) entry (clock_now sys1))).
    + destruct (outcome (Executor_submit_call _ _ _ _ _)) as [future|e].
      * rewrite Hnth, Hentry. reflexivity.
      * destruct Hentry as [-> Hlog]. split; [exact Hnth|].
        destruct (Scheduler_tick_run self sys) as (e2 & _ & _ & Hsys).
        cbv zeta in Hsys. rewrite Hsys.
        match goal with
        | |- context [drain_instant_queue ?q ?st ?sy] =>
            destruct (drain_instant_queue_effect q st sy) as (_ & _ & (x2 & Hl2 & _) & _)
        end.
        rewrite Hl2, Hreg, after_entries_app. cbn [after_entries].
        fold self1 sys1. fold self2 sys2.
        destruct (after_entries_log after self2 sys2) as (x1 & Hl1).
        rewrite Hl1, Hlog. rewrite !in_app_iff. left. left. right. now left.
    + rewrite Hnth, Hentry. reflexivity.
  - split; [apply after_entry_call|].
    rewrite Scheduler_tick_executor, Hreg, due_entries_app.
    fold self1 sys1. cbn [due_entries]. fold self2 sys2.
    rewrite !map_app, <- !app_assoc, !submitted_in_turn_app.
    assert (Hb1 : backend sys1 = backend sys)
      by (destruct (after_entries_frame before self sys) as (_ & _ & H); exact H).
    rewrite <- (after_entries_executor before self sys). fold self1.
    assert (H2 : executor self2
                 = submitted_in_turn sys
                     (map entry_job
                        (if fst (is_due_at (fpu sys1) entry (clock_now sys1))
                         then [entry] else []))
                     (executor self1)).
    { unfold self2. rewrite after_entry_executor.
      apply submitted_in_turn_backend. exact Hb1. }
    rewrite H2.
    destruct (fst (is_due_at (fpu sys1) entry (clock_now sys1))); reflexivity.
Qed.

Lemma Scheduler_tick_submission_failure_isolated_witness :
  let a := example_entry "a" 6 None in
  let b := example_entry "b" 8 (Some 1) in
  let self := example_scheduler [a; b] [] in
  let sys := frozen_sys 10 (refusing_backend "a") in
  let r := Scheduler_tick self sys in
  scheduled_entries self = [] ++ ("a"%string, a) :: [("b"%string, b)] /\
  nth_error (scheduled_entries (state_of r)) 0 = Some ("a"%string, a) /\
  In (ERROR, FailedToSubmitScheduledTask "a"
               (mkExc PoolError "cannot schedule new futures"))
     (log (sys_of r)) /\
  accepted_jobs (executor (state_of r)) = [entry_job b].
Proof.
  cbv zeta. split; [reflexivity|].
  pose proof (Scheduler_tick_submission_failure_isolated [] _ _ _
                (example_scheduler
                   [example_entry "a" 6 None; example_entry "b" 8 (Some 1)] [])
                (frozen_sys 10 (refusing_backend "a")) eq_refl)
    as (_ & _ & H & _).
  split; [exact (proj1 H)|]. split; [exact (proj2 H)|reflexivity].
Defined.
